(** * The globaldb v7 -> v8 upgrade of rotki, verified

    Source: [rotkehlchen/globaldb/upgrades/v7_v8.py].

    The upgrade clears the [protocol] column of a fixed list of EVM tokens
    that were flagged as spam by mistake, and records each of them in
    [general_cache] under the key [SPAM_ASSET_FALSE_POSITIVE].

    The Python code talks to three collaborators: the SQLite store (through
    a cursor), the clock ([ts_now]) and the logger (through the
    [enter_exit_debug_log] decorator). They are embedded as one explicit
    [world] that every function threads through a state-and-error monad. *)

From stdpp Require Import gmap strings list fin_maps.

Local Open Scope string_scope.
Local Open Scope Z_scope.

(** ** Data model *)

(** A value stored in a column that the upgrade never looks at. *)
Inductive sql_value :=
| SqlNull
| SqlInteger (n : Z)
| SqlText (s : string).

#[global] Instance sql_value_eq_dec : EqDecision sql_value.
Proof. solve_decision. Defined.

(** A row of [evm_tokens], without its [identifier]. The upgrade names two
    columns, [identifier] and [protocol]; every other column is carried
    along in [other_columns]. [protocol = None] is SQL NULL. *)
Record token_row := TokenRow {
  protocol : option string;
  other_columns : list sql_value
}.

#[global] Instance token_row_eq_dec : EqDecision token_row.
Proof. solve_decision. Defined.

(** The store. [evm_tokens] is keyed by [identifier]; [general_cache] is
    keyed by the pair [(key, value)] and holds [last_queried_ts];
    [other_tables] maps the name of every other table to its rows.

    Modelled from the spec: the schema (the CREATE TABLE statements) is not
    part of this file. The spec speaks of "an update keyed by an identifier
    column" and of "insert if absent" for the cache rows of each identifier,
    so the identifier is the key of [evm_tokens] and the pair (key, value)
    is the key of [general_cache]. *)
Record database := Database {
  evm_tokens : gmap string token_row;
  general_cache : gmap (string * string) Z;
  other_tables : gmap string (list (list sql_value))
}.

(** Errors the store can raise (the exception classes of the driver). *)
Inductive store_error :=
| OperationalError (msg : string)
| IntegrityError (msg : string)
| DatabaseError (msg : string).

#[global] Instance store_error_eq_dec : EqDecision store_error.
Proof. solve_decision. Defined.

(** The two SQL statements of the upgrade, indexed by the type of the
    parameter tuple they bind. *)
Inductive statement : Type -> Type :=
| UPDATE_evm_tokens_SET_protocol_NULL_WHERE_identifier : statement string
| INSERT_OR_IGNORE_INTO_general_cache : statement (string * string * Z).

(** What an observer of the collaborators sees, in order. *)
Inductive event :=
| EvBegin
| EvCommit
| EvRollback
| EvUpdate (identifier : string)
| EvInsert (key value : string) (last_queried_ts : Z)
| EvTsNow (ts : Z).

(** The world outside the Python code.
    - [db]: the store as the connection sees it;
    - [clock], [clock_reads]: the reading the clock gives at its k-th
      consultation, and how many times it has been consulted;
    - [faults]: what the store will do to the next statements, one entry per
      statement ([Some e]: raise [e]; [None] or no entry: run it);
    - [trace]: the statements, clock readings and transaction marks so far;
    - [log]: the debug log. *)
Record world := World {
  db : database;
  clock : nat -> Z;
  clock_reads : nat;
  faults : list (option store_error);
  trace : list event;
  log : list string
}.

Definition set_db (d : database) (w : world) : world :=
  World d (clock w) (clock_reads w) (faults w) (trace w) (log w).

Definition set_faults (fs : list (option store_error)) (w : world) : world :=
  World (db w) (clock w) (clock_reads w) fs (trace w) (log w).

Definition record (ev : event) (w : world) : world :=
  World (db w) (clock w) (clock_reads w) (faults w) (trace w ++ [ev]) (log w).

Definition tick (w : world) : world :=
  World (db w) (clock w) (S (clock_reads w)) (faults w) (trace w) (log w).

Definition add_log (line : string) (w : world) : world :=
  World (db w) (clock w) (clock_reads w) (faults w) (trace w) (log w ++ [line]).

(** Handles. They carry no state of their own: the state is the world's. *)
Inductive DBConnection : Set := GlobalDBConnection.
Inductive DBCursor : Set := CursorOf (connection : DBConnection).

(** ** The state-and-error monad *)

Inductive result (A : Type) :=
| Ok (a : A) (w : world)
| Err (e : store_error) (w : world).
Arguments Ok {A} a w.
Arguments Err {A} e w.

Definition M (A : Type) : Type := world -> result A.

Definition ret {A} (a : A) : M A := fun w => Ok a w.

Definition bind {A B} (m : M A) (k : A -> M B) : M B := fun w =>
  match m w with
  | Ok a w' => k a w'
  | Err e w' => Err e w'
  end.

#[global] Instance M_ret : MRet M := @ret.
#[global] Instance M_bind : MBind M := fun A B k m => bind m k.

(** What the caller gets: the returned value, or the raised error. *)
Definition outcome {A} (r : result A) : A + store_error :=
  match r with
  | Ok a _ => inl a
  | Err e _ => inr e
  end.

(** The world a call leaves behind, whether it returned or raised. *)
Definition final {A} (r : result A) : world :=
  match r with
  | Ok _ w => w
  | Err _ w => w
  end.

(** ** The store *)

Definition clear_protocol (r : token_row) : token_row :=
  TokenRow None (other_columns r).

Definition set_evm_tokens (t : gmap string token_row) (d : database) : database :=
  Database t (general_cache d) (other_tables d).

Definition set_general_cache (c : gmap (string * string) Z) (d : database) : database :=
  Database (evm_tokens d) c (other_tables d).

(** The effect of one statement on the store.
    - [UPDATE evm_tokens SET protocol=NULL WHERE identifier=?] rewrites the
      row of that identifier, if there is one;
    - [INSERT OR IGNORE INTO general_cache(key, value, last_queried_ts)
      VALUES (?, ?, ?)] adds the row unless a row with that (key, value)
      exists, in which case nothing happens. *)
Definition run_statement {P} (sql : statement P) : P -> database -> database :=
  match sql in statement P return P -> database -> database with
  | UPDATE_evm_tokens_SET_protocol_NULL_WHERE_identifier => fun asset_id d =>
      set_evm_tokens (alter clear_protocol asset_id (evm_tokens d)) d
  | INSERT_OR_IGNORE_INTO_general_cache => fun '(key, value, last_queried_ts) d =>
      match general_cache d !! (key, value) with
      | Some _ => d
      | None => set_general_cache (<[(key, value) := last_queried_ts]> (general_cache d)) d
      end
  end.

Definition event_of {P} (sql : statement P) : P -> event :=
  match sql in statement P return P -> event with
  | UPDATE_evm_tokens_SET_protocol_NULL_WHERE_identifier => fun asset_id =>
      EvUpdate asset_id
  | INSERT_OR_IGNORE_INTO_general_cache => fun '(key, value, last_queried_ts) =>
      EvInsert key value last_queried_ts
  end.

(** [cursor.execute]: the store consumes one entry of its fault schedule;
    it either raises that error, leaving the store as it was, or runs the
    statement. *)
Definition execute {P} (sql : statement P) (params : P) : M unit := fun w =>
  match faults w with
  | Some e :: fs => Err e (set_faults fs w)
  | fs => Ok tt (record (event_of sql params)
                   (set_db (run_statement sql params (db w))
                      (set_faults (tail fs) w)))
  end.

(** [cursor.executemany]: the statement once per parameter tuple, in order,
    stopping at the first error; what ran before the error stays done. *)
Fixpoint executemany {P} (sql : statement P) (seq_of_params : list P) : M unit :=
  match seq_of_params with
  | [] => mret tt
  | params :: rest => execute sql params ;; executemany sql rest
  end.

(** [ts_now()]: seconds since the epoch, as the clock reads now. *)
Definition ts_now : M Z := fun w =>
  let ts := clock w (clock_reads w) in
  Ok ts (record (EvTsNow ts) (tick w)).

(** [log.debug(line)]. *)
Definition log_debug (line : string) : M unit := fun w => Ok tt (add_log line w).

(** Modelled from the spec: [enter_exit_debug_log] lives in
    [rotkehlchen/logging.py], which is not part of this file's source. The
    spec describes it as a wrapper "for observability only" with "entry/exit"
    records, "parameter-free", that "must not swallow or transform
    exceptions/errors": it logs the entry, calls the function, logs the exit
    when the function returns and hands back what the function returned; an
    error of the function passes through. [func_name] stands for
    [func.__name__], used when no [name] is given. *)
Definition enter_exit_debug_log (name : option string) (func_name : string)
    {A B} (func : A -> M B) : A -> M B := fun args =>
  let function_name := default func_name name in
  log_debug ("Enter " +:+ function_name) ;;
  result ← func args ;
  log_debug ("Exit " +:+ function_name) ;;
  mret result.

(** Modelled from the spec: [DBConnection.write_ctx] lives in
    [rotkehlchen/db/drivers/gevent.py], which is not part of this file's
    source. The spec gives the transaction discipline: "open a transaction
    scoped to the store; invoke the step's action with the transaction
    handle; on success [...] commit; on failure, roll back the transaction
    [...] and halt", the error being "surfaced to the caller". Rolling back
    restores the store to what it was when the transaction was opened. *)
Definition write_ctx {A} (connection : DBConnection) (body : DBCursor -> M A) : M A :=
  fun w =>
    let at_begin := db w in
    match body (CursorOf connection) (record EvBegin w) with
    | Ok a w' => Ok a (record EvCommit w')
    | Err e w' => Err e (record EvRollback (set_db at_begin w'))
    end.

(** ** The upgrade *)

Definition ASSETS_TO_WHITELIST : list string := [
  "eip155:1/erc20:0x2ecB13A8c458c379c4d9a7259e202De03c8F3D19";
  "eip155:1/erc20:0xA0b73E1Ff0B80914AB6fe0444E65848C4C34450b";
  "eip155:1/erc20:0xB70835D7822eBB9426B56543E391846C107bd32C";
  "eip155:1/erc20:0x9C78EE466D6Cb57A4d01Fd887D2b5dFb2D46288f";
  "eip155:1/erc20:0xB63B606Ac810a52cCa15e44bB630fd42D8d1d83d";
  "eip155:1/erc20:0x905E337c6c8645263D3521205Aa37bf4d034e745";
  "eip155:1/erc20:0x6863bE0e7CF7ce860A574760e9020D519a8bDC47";
  "eip155:1/erc20:0x9B02dD390a603Add5c07f9fd9175b7DABE8D63B7";
  "eip155:1/erc20:0xD6Ea40597Be05c201845c0bFd2e96A60bACde267";
  "eip155:1/erc20:0xf2db9a7c0ACd427A680D640F02d90f6186E71725";
  "eip155:1/erc20:0x50f09629d0afDF40398a3F317cc676cA9132055c";
  "eip155:1/erc20:0xd3E4Ba569045546D09CF021ECC5dFe42b1d7f6E4";
  "eip155:137/erc20:0xd7c8469c7eC40f853dA5f651DE81b45aeD47e5aB";
  "eip155:43114/erc20:0xbd3936eC8D83A5D4e73ecA625eCFa006da8C8F52";
  "eip155:56/erc20:0xCB6409696c58aA777317dbdfaa8bab4AC8e39Eea";
  "eip155:56/erc20:0x78A18Db278F9c7c9657F61dA519e6Ef43794DD5D";
  "eip155:56/erc20:0x39d4549908e7Adcee9b439429294eEb4c65c2C9e";
  "eip155:56/erc20:0x431e0cD023a32532BF3969CddFc002c00E98429d";
  "eip155:56/erc20:0x959229D94c9060552daea25AC17193bcA65D7884";
  "eip155:56/erc20:0x686318000d982bc8dCC1cdCF8fFd22322F0960Ed";
  "eip155:56/erc20:0x9CD9C5a44CB8fab39b2Ee3556F5c439e65E4fDdD";
  "eip155:56/erc20:0xeCEB87cF00DCBf2D4E2880223743Ff087a995aD9";
  "eip155:56/erc20:0x368ce786Ea190f32439074e8d22e12ecb718B44c";
  "eip155:56/erc20:0x0F5d8CD195a4539bcf2eC6118C6dA50287c6d5f5";
  "eip155:56/erc20:0x52fe7b439753092f584917e3EFEa86A1cFD210f9";
  "eip155:56/erc20:0x3a06212763CAF64bf101DaA4b0cEbb0cD393fA1a";
  "eip155:56/erc20:0x6a6Ccf15B38DA4b5B0eF4C8fe9FefCB472A893F9";
  "eip155:56/erc20:0xBd2949F67DcdC549c6Ebe98696449Fa79D988A9F";
  "eip155:56/erc20:0x2235e79086dd23135119366da45851c741874e5B";
  "eip155:1/erc20:0x4185cf99745B2a20727B37EE798193DD4a56cDfa";
  "eip155:1/erc20:0x1c899dED01954d0959E034b62a728e7fEbE593b0";
  "eip155:1/erc20:0xc56c2b7e71B54d38Aab6d52E94a04Cbfa8F604fA";
  "eip155:1/erc20:0x96Ea6AF74Af09522fCB4c28C269C26F59a31ced6";
  "eip155:1/erc20:0x4f018C06810Ea979F0E8a5D73CB8aa977Ba17aBA";
  "eip155:1/erc20:0xc29259ea3f13778B8985014fB4b1b8e7DC5d5C94";
  "eip155:1/erc20:0x1974e843Fcf3627f8999544F3842bF58BB921ca2";
  "eip155:1/erc20:0x5b1FDc01f028C2347ab5fddB4D1effBf82a411d3";
  "eip155:1/erc20:0x6BC08509B36A98E829dFfAD49Fde5e412645d0a3";
  "eip155:1/erc20:0xA49d7499271aE71cd8aB9Ac515e6694C755d400c";
  "eip155:10/erc20:0xb396b31599333739A97951b74652c117BE86eE1D";
  "eip155:1/erc20:0xaA247c0D81B83812e1ABf8bAB078E4540D87e3fB"
].

Definition SPAM_ASSET_FALSE_POSITIVE : string := "SPAM_ASSET_FALSE_POSITIVE".

(** The body of [fix_detected_spam_tokens], before decoration. *)
Definition fix_detected_spam_tokens_body (write_cursor : DBCursor) : M unit :=
  executemany UPDATE_evm_tokens_SET_protocol_NULL_WHERE_identifier
    (map (fun asset_id => asset_id) ASSETS_TO_WHITELIST) ;;
  current_ts ← ts_now ;
  executemany INSERT_OR_IGNORE_INTO_general_cache
    (map (fun asset_id => (SPAM_ASSET_FALSE_POSITIVE, asset_id, current_ts))
       ASSETS_TO_WHITELIST).

(** [@enter_exit_debug_log()] *)
Definition fix_detected_spam_tokens : DBCursor -> M unit :=
  enter_exit_debug_log None "fix_detected_spam_tokens" fix_detected_spam_tokens_body.

(** The body of [migrate_to_v8], before decoration. *)
Definition migrate_to_v8_body (connection : DBConnection) : M unit :=
  write_ctx connection (fun write_cursor => fix_detected_spam_tokens write_cursor).

(** [@enter_exit_debug_log(name='globaldb v7->v8 upgrade')] *)
Definition migrate_to_v8 : DBConnection -> M unit :=
  enter_exit_debug_log (Some "globaldb v7->v8 upgrade") "migrate_to_v8" migrate_to_v8_body.

(** The number of listed identifiers, the spec's N. *)
Definition N_assets : nat := length ASSETS_TO_WHITELIST.

(** ** Reference semantics: what a run does, as pure functions *)

(** Position (counted in statements) and error of the first fault the store
    raises among its next [n] statements. *)
Fixpoint first_fault (n : nat) (fs : list (option store_error))
    : option (nat * store_error) :=
  match n, fs with
  | S _, Some e :: _ => Some (O, e)
  | S n', None :: fs' => prod_map S id <$> first_fault n' fs'
  | _, _ => None
  end.

(** The store after the statement ran for each parameter tuple in turn. *)
Definition run_all {P} (sql : statement P) (seq_of_params : list P)
    (d : database) : database :=
  foldl (fun d' params => run_statement sql params d') d seq_of_params.

Definition update_params : list string :=
  map (fun asset_id => asset_id) ASSETS_TO_WHITELIST.

Definition insert_params (current_ts : Z) : list (string * string * Z) :=
  map (fun asset_id => (SPAM_ASSET_FALSE_POSITIVE, asset_id, current_ts))
    ASSETS_TO_WHITELIST.

(** The events of one complete run of the body. *)
Definition step_events (current_ts : Z) : list event :=
  map EvUpdate ASSETS_TO_WHITELIST ++ [EvTsNow current_ts] ++
  map (fun asset_id => EvInsert SPAM_ASSET_FALSE_POSITIVE asset_id current_ts)
    ASSETS_TO_WHITELIST.

(** The store after one complete run of the body at time [current_ts]. *)
Definition whitelisted (current_ts : Z) (d : database) : database :=
  run_all INSERT_OR_IGNORE_INTO_general_cache (insert_params current_ts)
    (run_all UPDATE_evm_tokens_SET_protocol_NULL_WHERE_identifier update_params d).

(** The world with its debug log blanked: what is left is everything but
    the logging. *)
Definition erase_log (w : world) : world :=
  World (db w) (clock w) (clock_reads w) (faults w) (trace w) [].

(** Two calls behave alike: same value or error, same world but for the log. *)
Definition same_behaviour {A} (r1 r2 : result A) : Prop :=
  outcome r1 = outcome r2 ∧ erase_log (final r1) = erase_log (final r2).

(** The rows of [evm_tokens] that differ between two stores. *)
Definition updated_rows (d d' : database) : gset string :=
  filter (fun asset_id => evm_tokens d !! asset_id ≠ evm_tokens d' !! asset_id)
    (dom (evm_tokens d) ∪ dom (evm_tokens d')).

(** The listed identifiers that have no cache row yet. *)
Definition not_recorded (d : database) (ids : list string) : list string :=
  filter (fun asset_id =>
            general_cache d !! (SPAM_ASSET_FALSE_POSITIVE, asset_id) = None) ids.

(** A computation is blind to the log when two worlds that differ in their
    logs only make it behave alike. *)
Definition log_blind {A} (m : M A) : Prop :=
  ∀ w w', erase_log w = erase_log w' → same_behaviour (m w) (m w').

(** The store raises nothing during the 2N statements of a run. *)
Definition store_works (w : world) : Prop :=
  first_fault (N_assets + N_assets) (faults w) = None.

(** The store reached when the first [k1] updates and then the first [k2]
    inserts (stamped [ts]) have run. *)
Definition partly_whitelisted (k1 k2 : nat) (ts : Z) (d : database) : database :=
  run_all INSERT_OR_IGNORE_INTO_general_cache
    (map (fun asset_id => (SPAM_ASSET_FALSE_POSITIVE, asset_id, ts))
       (take k2 ASSETS_TO_WHITELIST))
    (run_all UPDATE_evm_tokens_SET_protocol_NULL_WHERE_identifier
       (take k1 ASSETS_TO_WHITELIST) d).

(** ** Example worlds *)

(** Three listed identifiers and one that is not listed. *)
Definition BC : string := "eip155:1/erc20:0x2ecB13A8c458c379c4d9a7259e202De03c8F3D19".
Definition CRO : string := "eip155:1/erc20:0xA0b73E1Ff0B80914AB6fe0444E65848C4C34450b".
Definition GTC : string := "eip155:1/erc20:0xB70835D7822eBB9426B56543E391846C107bd32C".
Definition DAI : string := "eip155:1/erc20:0x6B175474E89094C44Da98b954EedeAC495271d0F".

(** A store with [BC] flagged as spam, [CRO] carrying another protocol, an
    unlisted token flagged as spam, the cache row of [BC] already there, a
    cache row of another kind, and one more table. *)
Definition example_db : database :=
  Database
    {[ BC := TokenRow (Some "spam") [SqlText "A"; SqlInteger 1; SqlInteger 18];
       CRO := TokenRow (Some "aave") [SqlText "A"; SqlInteger 1; SqlInteger 8];
       DAI := TokenRow (Some "spam") [SqlText "A"; SqlInteger 1; SqlInteger 18] ]}
    {[ (SPAM_ASSET_FALSE_POSITIVE, BC) := 1700000000;
       ("CURVE_LP_TOKENS", "0xbEbc44782C7dB0a1A60Cb6fe97d0b483032FF1C7") := 1690000000 ]}
    {[ "settings" := [[SqlText "version"; SqlInteger 7]] ]}.

Definition example_clock (k : nat) : Z := 1717000000 + Z.of_nat k.

(** The store works. *)
Definition example_world : world :=
  World example_db example_clock 0 [] [] [].

(** The store runs the 41 updates and raises at the first insert. *)
Definition failing_world : world :=
  World example_db example_clock 0
    (replicate 41 None ++ [Some (OperationalError "disk I/O error")]) [] [].

Definition example_cursor : DBCursor := CursorOf GlobalDBConnection.

(** The store runs the first update and raises at the second. *)
Definition failing_update_world : world :=
  World example_db example_clock 0
    [None; Some (OperationalError "database is locked")] [] [].

(** The store runs the 41 updates and two inserts and raises at the third. *)
Definition failing_insert_world : world :=
  World example_db example_clock 0
    (replicate 43 None ++ [Some (OperationalError "database or disk is full")]) [] [].

(** An event that the step causes on its own at time [current_ts]: an update
    of a listed identifier, the clock reading, or an insert of a listed
    identifier under SPAM_ASSET_FALSE_POSITIVE with that reading; never a
    transaction mark. *)
Definition step_event (current_ts : Z) (ev : event) : Prop :=
  match ev with
  | EvUpdate asset_id => asset_id ∈ ASSETS_TO_WHITELIST
  | EvTsNow ts => ts = current_ts
  | EvInsert key value ts =>
      key = SPAM_ASSET_FALSE_POSITIVE ∧ value ∈ ASSETS_TO_WHITELIST ∧ ts = current_ts
  | EvBegin | EvCommit | EvRollback => False
  end.

(** The events the step has caused when the store raises at its statement
    number [k] (counted from 0 over the 2N statements): the first [k]
    updates when [k < N]; otherwise the N updates, the clock reading and the
    first [k - N] inserts, that is [k + 1] events. *)
Definition events_before_fault (k : nat) (current_ts : Z) : list event :=
  take (if decide (k < N_assets)%nat then k else S k) (step_events current_ts).

(** The list and what is built from it are unfolded last when two terms
    are compared: proofs go through the lemmas below, not through the 41
    literals. *)
Strategy 1000 [ASSETS_TO_WHITELIST N_assets update_params insert_params
               step_events whitelisted partly_whitelisted run_all].

(** * Lemmas

    ** The fault schedule *)

Lemma first_fault_nil n : first_fault n [] = None.
Proof. by destruct n. Qed.

Lemma first_fault_lt n fs k e : first_fault n fs = Some (k, e) → (k < n)%nat.
Proof.
  revert fs k e. induction n as [|n IH]; intros [|[e'|] fs] k e; simpl; try done.
  - intros [= <- _]. lia.
  - destruct (first_fault n fs) as [[k' e'']|] eqn:E; simpl; [|done].
    intros [= <- _]. apply IH in E. lia.
Qed.

Lemma first_fault_lookup n fs k e :
  first_fault n fs = Some (k, e) → fs !! k = Some (Some e).
Proof.
  revert fs k e. induction n as [|n IH]; intros [|[e'|] fs] k e; simpl; try done.
  - by intros [= <- <-].
  - destruct (first_fault n fs) as [[k' e'']|] eqn:E; simpl; [|done].
    intros [= <- <-]. rewrite lookup_cons. by apply IH.
Qed.

(** The schedule over [n + m] statements is the schedule over the first [n],
    then over the next [m]. *)
Lemma first_fault_add n m fs :
  first_fault (n + m) fs =
  match first_fault n fs with
  | Some hit => Some hit
  | None => prod_map (fun k => (n + k)%nat) id <$> first_fault m (drop n fs)
  end.
Proof.
  revert fs. induction n as [|n IH]; intros fs; simpl.
  - rewrite drop_0. destruct (first_fault m fs) as [[k e]|]; done.
  - destruct fs as [|[e|] fs]; simpl.
    + by rewrite first_fault_nil.
    + done.
    + rewrite IH. destruct (first_fault n fs) as [[k e]|]; simpl; [done|].
      destruct (first_fault m (drop n fs)) as [[k e]|]; done.
Qed.

(** An empty schedule: the store never fails. *)
Lemma first_fault_replicate_None n m : first_fault n (replicate m None) = None.
Proof.
  revert m. induction n as [|n IH]; intros [|m]; simpl; try done.
  by rewrite IH.
Qed.

(** [first_fault] finds the first statement at which the store raises. *)
Lemma first_fault_complete n fs k e :
  (k < n)%nat → fs !! k = Some (Some e) →
  (∀ j e', (j < k)%nat → fs !! j ≠ Some (Some e')) →
  first_fault n fs = Some (k, e).
Proof.
  revert fs k. induction n as [|n IH]; intros fs k Hk Hat Hbefore; [lia|].
  destruct fs as [|[e0|] fs]; [discriminate Hat| |].
  - destruct k as [|k]; [by injection Hat as ->|].
    exfalso. apply (Hbefore 0%nat e0); [lia|reflexivity].
  - destruct k as [|k]; [discriminate Hat|].
    cbn [first_fault]. rewrite (IH fs k); [reflexivity|lia|exact Hat|].
    intros j e' Hj. apply (Hbefore (S j) e'). lia.
Qed.

Lemma first_fault_None_intro n fs :
  (∀ k e, (k < n)%nat → fs !! k ≠ Some (Some e)) → first_fault n fs = None.
Proof.
  revert fs. induction n as [|n IH]; intros fs H; [reflexivity|].
  destruct fs as [|[e0|] fs]; [reflexivity| |].
  - exfalso. apply (H 0%nat e0); [lia|reflexivity].
  - cbn [first_fault]. rewrite IH; [reflexivity|].
    intros k e Hk. apply (H (S k) e). lia.
Qed.

(** ** [executemany] against the reference semantics *)

Lemma executemany_spec {P} (sql : statement P) (ps : list P) (w : world) :
  executemany sql ps w =
  match first_fault (length ps) (faults w) with
  | None =>
      Ok tt (World (run_all sql ps (db w)) (clock w) (clock_reads w)
               (drop (length ps) (faults w))
               (trace w ++ map (event_of sql) ps) (log w))
  | Some (k, e) =>
      Err e (World (run_all sql (take k ps) (db w)) (clock w) (clock_reads w)
               (drop (S k) (faults w))
               (trace w ++ map (event_of sql) (take k ps)) (log w))
  end.
Proof.
  revert w. induction ps as [|p ps IH]; intros [d ck cr fs tr lg].
  - simpl. by rewrite app_nil_r.
  - cbn [executemany length]. unfold mbind, M_bind, bind, execute.
    destruct fs as [|[e|] fs]; cbn [faults first_fault].
    + rewrite IH. cbn. rewrite first_fault_nil, drop_nil. cbn.
      by rewrite <-app_assoc.
    + cbn. by rewrite app_nil_r.
    + rewrite IH. cbn.
      destruct (first_fault (length ps) fs) as [[k e]|]; cbn;
        by rewrite <-app_assoc.
Qed.

(** ** The statements' effect on the tables *)

Lemma clear_protocol_idemp (r : token_row) :
  clear_protocol (clear_protocol r) = clear_protocol r.
Proof. done. Qed.

Lemma run_all_cons {P} (sql : statement P) p ps d :
  run_all sql (p :: ps) d = run_all sql ps (run_statement sql p d).
Proof. done. Qed.

(** After the updates, a row is cleared if its identifier was among the
    parameters and untouched otherwise. *)
Lemma run_all_update_evm_tokens (ids : list string) (d : database) (asset_id : string) :
  evm_tokens (run_all UPDATE_evm_tokens_SET_protocol_NULL_WHERE_identifier ids d)
    !! asset_id =
  if decide (asset_id ∈ ids) then clear_protocol <$> evm_tokens d !! asset_id
  else evm_tokens d !! asset_id.
Proof.
  revert d. induction ids as [|x ids IH]; intros d.
  - case_decide as Hin; [by apply elem_of_nil in Hin|done].
  - rewrite run_all_cons, IH. cbn [run_statement set_evm_tokens evm_tokens].
    rewrite lookup_alter.
    destruct (decide (x = asset_id)) as [->|Hne].
    + rewrite (decide_True (P:=asset_id ∈ asset_id :: ids)) by left.
      destruct (evm_tokens d !! asset_id); case_decide; done.
    + destruct (decide (asset_id ∈ ids)) as [Hin|Hin].
      * by rewrite decide_True by (by right).
      * rewrite decide_False; [done|]. intros [?|?]%elem_of_cons; congruence.
Qed.

Lemma run_all_update_general_cache (ids : list string) (d : database) :
  general_cache (run_all UPDATE_evm_tokens_SET_protocol_NULL_WHERE_identifier ids d)
  = general_cache d.
Proof.
  revert d. induction ids as [|x ids IH]; intros d; [done|].
  by rewrite run_all_cons, IH.
Qed.

Lemma run_all_update_other_tables (ids : list string) (d : database) :
  other_tables (run_all UPDATE_evm_tokens_SET_protocol_NULL_WHERE_identifier ids d)
  = other_tables d.
Proof.
  revert d. induction ids as [|x ids IH]; intros d; [done|].
  by rewrite run_all_cons, IH.
Qed.

Lemma run_insert_evm_tokens (p : string * string * Z) (d : database) :
  evm_tokens (run_statement INSERT_OR_IGNORE_INTO_general_cache p d) = evm_tokens d.
Proof.
  destruct p as [[key value] ts]. cbn.
  by destruct (general_cache d !! (key, value)).
Qed.

Lemma run_insert_other_tables (p : string * string * Z) (d : database) :
  other_tables (run_statement INSERT_OR_IGNORE_INTO_general_cache p d) = other_tables d.
Proof.
  destruct p as [[key value] ts]. cbn.
  by destruct (general_cache d !! (key, value)).
Qed.

Lemma run_all_insert_evm_tokens (ps : list (string * string * Z)) (d : database) :
  evm_tokens (run_all INSERT_OR_IGNORE_INTO_general_cache ps d) = evm_tokens d.
Proof.
  revert d. induction ps as [|p ps IH]; intros d; [done|].
  by rewrite run_all_cons, IH, run_insert_evm_tokens.
Qed.

Lemma run_all_insert_other_tables (ps : list (string * string * Z)) (d : database) :
  other_tables (run_all INSERT_OR_IGNORE_INTO_general_cache ps d) = other_tables d.
Proof.
  revert d. induction ps as [|p ps IH]; intros d; [done|].
  by rewrite run_all_cons, IH, run_insert_other_tables.
Qed.

(** One INSERT OR IGNORE, read back at any key. *)
Lemma run_insert_general_cache key value ts (d : database) (kv : string * string) :
  general_cache (run_statement INSERT_OR_IGNORE_INTO_general_cache (key, value, ts) d)
    !! kv =
  match general_cache d !! kv with
  | Some t => Some t
  | None => if decide (kv = (key, value)) then Some ts else None
  end.
Proof.
  cbn. destruct (general_cache d !! (key, value)) as [t|] eqn:E.
  - destruct (general_cache d !! kv) eqn:E'; [done|].
    case_decide; [congruence|done].
  - cbn. rewrite lookup_insert. case_decide as Heq.
    + subst kv. rewrite E. by rewrite decide_True.
    + destruct (general_cache d !! kv); [done|].
      rewrite decide_False; [done|congruence].
Qed.

(** After the inserts stamped [ts], a row that existed is as it was, a
    missing row of a listed identifier is there with [ts], and no other row
    appeared. *)
Lemma run_all_insert_general_cache ts (ids : list string) (d : database)
    (kv : string * string) :
  general_cache
    (run_all INSERT_OR_IGNORE_INTO_general_cache
       (map (fun asset_id => (SPAM_ASSET_FALSE_POSITIVE, asset_id, ts)) ids) d)
    !! kv =
  match general_cache d !! kv with
  | Some t => Some t
  | None =>
      if decide (kv.1 = SPAM_ASSET_FALSE_POSITIVE ∧ kv.2 ∈ ids) then Some ts
      else None
  end.
Proof.
  revert d. induction ids as [|x ids IH]; intros d.
  - cbn. destruct (general_cache d !! kv); [done|].
    rewrite decide_False; [done|]. intros [_ Hin]. by apply elem_of_nil in Hin.
  - cbn [map]. rewrite run_all_cons, IH, run_insert_general_cache.
    destruct (general_cache d !! kv) as [t|]; [done|].
    destruct kv as [k v]. cbn [fst snd].
    destruct (decide ((k, v) = (SPAM_ASSET_FALSE_POSITIVE, x))) as [[= -> ->]|Hne].
    + rewrite decide_True; [done|]. split; [done|left].
    + destruct (decide (k = SPAM_ASSET_FALSE_POSITIVE ∧ v ∈ ids)) as [[-> Hin]|Hn].
      * rewrite decide_True; [done|]. split; [done|by right].
      * rewrite decide_False; [done|]. intros [-> Hin].
        apply elem_of_cons in Hin as [->|Hin]; [done|]. by apply Hn.
Qed.

(** ** Logging does not steer anything *)

Lemma erase_log_eq (w w' : world) :
  erase_log w = erase_log w' ↔
  db w = db w' ∧ clock w = clock w' ∧ clock_reads w = clock_reads w' ∧
  faults w = faults w' ∧ trace w = trace w'.
Proof.
  destruct w, w'; cbn. split.
  - by intros [= -> -> -> -> ->].
  - by intros (-> & -> & -> & -> & ->).
Qed.

Lemma erase_log_add_log line w : erase_log (add_log line w) = erase_log w.
Proof. done. Qed.

Lemma same_behaviour_refl {A} (r : result A) : same_behaviour r r.
Proof. done. Qed.

Lemma same_behaviour_sym {A} (r1 r2 : result A) :
  same_behaviour r1 r2 → same_behaviour r2 r1.
Proof. intros [Ho Hf]. split; congruence. Qed.

Lemma same_behaviour_trans {A} (r1 r2 r3 : result A) :
  same_behaviour r1 r2 → same_behaviour r2 r3 → same_behaviour r1 r3.
Proof. intros [Ho Hf] [Ho' Hf']. split; congruence. Qed.

Lemma log_blind_ret {A} (a : A) : log_blind (mret a).
Proof. intros w w' H. done. Qed.

Lemma log_blind_bind {A B} (m : M A) (k : A → M B) :
  log_blind m → (∀ a, log_blind (k a)) → log_blind (m ≫= k).
Proof.
  intros Hm Hk w w' H. unfold mbind, M_bind, bind.
  destruct (Hm w w' H) as [Ho Hf].
  destruct (m w) as [a w1|e w1], (m w') as [a' w1'|e' w1']; cbn in Ho, Hf;
    try discriminate.
  - injection Ho as ->. by apply Hk.
  - injection Ho as ->. done.
Qed.

Lemma log_blind_log_debug line : log_blind (log_debug line).
Proof. intros w w' H. done. Qed.

Lemma log_blind_execute {P} (sql : statement P) (params : P) :
  log_blind (execute sql params).
Proof.
  intros w w' (Hd & Hc & Hr & Hf & Ht)%erase_log_eq.
  unfold execute. rewrite <-Hf, <-Hd.
  destruct (faults w) as [|[e|] fs]; split; try done;
    apply erase_log_eq; cbn; by rewrite ?Hc, ?Hr, ?Ht, ?Hf.
Qed.

Lemma log_blind_executemany {P} (sql : statement P) (ps : list P) :
  log_blind (executemany sql ps).
Proof.
  induction ps as [|p ps IH]; [apply log_blind_ret|].
  apply log_blind_bind; [apply log_blind_execute|done].
Qed.

Lemma log_blind_ts_now : log_blind ts_now.
Proof.
  intros w w' (Hd & Hc & Hr & Hf & Ht)%erase_log_eq.
  unfold ts_now. rewrite Hc, Hr. split; [done|].
  apply erase_log_eq; cbn. by rewrite ?Hd, ?Hc, ?Hr, ?Ht, ?Hf.
Qed.

Lemma log_blind_write_ctx {A} conn (body : DBCursor → M A) :
  (∀ c, log_blind (body c)) → log_blind (write_ctx conn body).
Proof.
  intros Hb w w' H. unfold write_ctx.
  assert (erase_log (record EvBegin w) = erase_log (record EvBegin w')) as H1.
  { apply erase_log_eq in H as (Hd & Hc & Hr & Hf & Ht).
    apply erase_log_eq; cbn. by rewrite ?Hd, ?Hc, ?Hr, ?Ht, ?Hf. }
  destruct (Hb (CursorOf conn) _ _ H1) as [Ho Hf].
  apply erase_log_eq in H as (Hd & _).
  destruct (body _ (record EvBegin w)) as [a w1|e w1],
    (body _ (record EvBegin w')) as [a' w1'|e' w1']; cbn in Ho, Hf;
    try discriminate;
    apply erase_log_eq in Hf as (Hd1 & Hc1 & Hr1 & Hf1 & Ht1);
    (split; [done|]); apply erase_log_eq; cbn;
    by rewrite ?Hd, ?Hd1, ?Hc1, ?Hr1, ?Ht1, ?Hf1.
Qed.

(** The decorator on a log-blind function: the same behaviour as the bare
    function, and again log-blind. *)
Lemma enter_exit_debug_log_transparent name func_name {A B}
    (func : A → M B) (args : A) (w : world) :
  log_blind (func args) →
  same_behaviour (enter_exit_debug_log name func_name func args w) (func args w).
Proof.
  intros Hb. unfold enter_exit_debug_log, mbind, M_bind, bind, log_debug, mret, M_ret, ret.
  set (line := "Enter " +:+ default func_name name).
  destruct (Hb (add_log line w) w (erase_log_add_log _ _)) as [Ho Hf].
  destruct (func args (add_log line w)) as [r w1|e w1]; [|done].
  split; [done|]. cbn [final]. by rewrite erase_log_add_log.
Qed.

Lemma enter_exit_debug_log_blind name func_name {A B}
    (func : A → M B) (args : A) :
  log_blind (func args) → log_blind (enter_exit_debug_log name func_name func args).
Proof.
  intros Hb w w' H.
  eapply same_behaviour_trans; [by apply enter_exit_debug_log_transparent|].
  eapply same_behaviour_trans; [by apply Hb|].
  by apply same_behaviour_sym, enter_exit_debug_log_transparent.
Qed.

Lemma fix_detected_spam_tokens_body_blind c : log_blind (fix_detected_spam_tokens_body c).
Proof.
  unfold fix_detected_spam_tokens_body.
  apply log_blind_bind; [apply log_blind_executemany|intros _].
  apply log_blind_bind; [apply log_blind_ts_now|intros ts].
  apply log_blind_executemany.
Qed.

Lemma fix_detected_spam_tokens_blind c : log_blind (fix_detected_spam_tokens c).
Proof. apply enter_exit_debug_log_blind, fix_detected_spam_tokens_body_blind. Qed.

Lemma migrate_to_v8_body_blind conn : log_blind (migrate_to_v8_body conn).
Proof. apply log_blind_write_ctx, fix_detected_spam_tokens_blind. Qed.

Lemma fix_detected_spam_tokens_transparent c w :
  same_behaviour (fix_detected_spam_tokens c w) (fix_detected_spam_tokens_body c w).
Proof. apply enter_exit_debug_log_transparent, fix_detected_spam_tokens_body_blind. Qed.

Lemma migrate_to_v8_transparent conn w :
  same_behaviour (migrate_to_v8 conn w) (migrate_to_v8_body conn w).
Proof. apply enter_exit_debug_log_transparent, migrate_to_v8_body_blind. Qed.

(** ** The body against the reference semantics *)

Lemma update_params_eq : update_params = ASSETS_TO_WHITELIST.
Proof. apply map_id. Qed.

Lemma length_update_params : length update_params = N_assets.
Proof. by rewrite update_params_eq. Qed.

Lemma length_insert_params ts : length (insert_params ts) = N_assets.
Proof. apply length_map. Qed.

Lemma map_event_of_update (ids : list string) :
  map (event_of UPDATE_evm_tokens_SET_protocol_NULL_WHERE_identifier) ids
  = map EvUpdate ids.
Proof. done. Qed.

Lemma map_event_of_insert ts (ids : list string) :
  map (event_of INSERT_OR_IGNORE_INTO_general_cache)
    (map (fun asset_id => (SPAM_ASSET_FALSE_POSITIVE, asset_id, ts)) ids)
  = map (fun asset_id => EvInsert SPAM_ASSET_FALSE_POSITIVE asset_id ts) ids.
Proof. by rewrite map_map. Qed.

(** The whole body, case by case on where the store first fails: during the
    updates, during the inserts, or not at all. *)
Lemma fix_detected_spam_tokens_body_spec (c : DBCursor) (w : world) :
  fix_detected_spam_tokens_body c w =
  let ts := clock w (clock_reads w) in
  match first_fault N_assets (faults w) with
  | Some (k, e) =>
      Err e (World
               (run_all UPDATE_evm_tokens_SET_protocol_NULL_WHERE_identifier
                  (take k update_params) (db w))
               (clock w) (clock_reads w) (drop (S k) (faults w))
               (trace w ++ map EvUpdate (take k update_params)) (log w))
  | None =>
      match first_fault N_assets (drop N_assets (faults w)) with
      | Some (k, e) =>
          Err e (World
                   (run_all INSERT_OR_IGNORE_INTO_general_cache
                      (take k (insert_params ts))
                      (run_all UPDATE_evm_tokens_SET_protocol_NULL_WHERE_identifier
                         update_params (db w)))
                   (clock w) (S (clock_reads w))
                   (drop (S k) (drop N_assets (faults w)))
                   (trace w ++ map EvUpdate update_params ++ [EvTsNow ts] ++
                    map (event_of INSERT_OR_IGNORE_INTO_general_cache)
                      (take k (insert_params ts)))
                   (log w))
      | None =>
          Ok tt (World (whitelisted ts (db w)) (clock w) (S (clock_reads w))
                   (drop N_assets (drop N_assets (faults w)))
                   (trace w ++ step_events ts) (log w))
      end
  end.
Proof.
  unfold fix_detected_spam_tokens_body, mbind, M_bind, bind.
  fold update_params. rewrite executemany_spec, length_update_params.
  destruct (first_fault N_assets (faults w)) as [[k e]|]; [done|].
  unfold ts_now.
  cbn [db clock clock_reads faults trace log record tick].
  fold (insert_params (clock w (clock_reads w))).
  rewrite executemany_spec, length_insert_params.
  cbn [db clock clock_reads faults trace log record tick].
  destruct (first_fault N_assets (drop N_assets (faults w))) as [[k e]|].
  - by rewrite <-!app_assoc.
  - unfold whitelisted, step_events, insert_params at 2.
    rewrite map_event_of_insert, update_params_eq at 1. by rewrite <-!app_assoc.
Qed.

(** ** Outcomes and final worlds *)

Lemma ASSETS_TO_WHITELIST_NoDup : NoDup ASSETS_TO_WHITELIST.
Proof. apply (bool_decide_unpack _). vm_compute. exact I. Qed.

Lemma store_works_split (w : world) :
  store_works w ↔
  first_fault N_assets (faults w) = None ∧
  first_fault N_assets (drop N_assets (faults w)) = None.
Proof.
  unfold store_works. rewrite first_fault_add.
  destruct (first_fault N_assets (faults w)) as [[k e]|];
    [split; [done|by intros []]|].
  destruct (first_fault N_assets (drop N_assets (faults w))) as [[k e]|];
    cbn; split; try done; by intros [].
Qed.

Lemma result_ok_inv {A} (r : result A) a : outcome r = inl a → r = Ok a (final r).
Proof. destruct r; cbn; congruence. Qed.

Lemma result_err_inv {A} (r : result A) e : outcome r = inr e → r = Err e (final r).
Proof. destruct r; cbn; congruence. Qed.

Lemma take_N_assets : take N_assets ASSETS_TO_WHITELIST = ASSETS_TO_WHITELIST.
Proof. by apply take_ge. Qed.

Lemma whitelisted_partly ts d :
  whitelisted ts d = partly_whitelisted N_assets N_assets ts d.
Proof.
  unfold whitelisted, partly_whitelisted, insert_params.
  by rewrite update_params_eq, take_N_assets.
Qed.

(** What the caller of the body gets, from the fault schedule alone. *)
Lemma fix_detected_spam_tokens_body_outcome c w :
  outcome (fix_detected_spam_tokens_body c w) =
  match first_fault (N_assets + N_assets) (faults w) with
  | Some (_, e) => inr e
  | None => inl tt
  end.
Proof.
  rewrite fix_detected_spam_tokens_body_spec, first_fault_add. cbn zeta.
  destruct (first_fault N_assets (faults w)) as [[k e]|]; [done|].
  by destruct (first_fault N_assets (drop N_assets (faults w))) as [[k e]|].
Qed.

(** Whatever happens, the store the body leaves is the store after some of
    the updates and some of the inserts, in the order of the list. *)
Lemma fix_detected_spam_tokens_body_final_db c w :
  ∃ k1 k2,
    db (final (fix_detected_spam_tokens_body c w)) =
    partly_whitelisted k1 k2 (clock w (clock_reads w)) (db w).
Proof.
  rewrite fix_detected_spam_tokens_body_spec. cbn zeta.
  destruct (first_fault N_assets (faults w)) as [[k e]|].
  - exists k, 0%nat. cbn [final db]. by rewrite update_params_eq.
  - destruct (first_fault N_assets (drop N_assets (faults w))) as [[k e]|].
    + exists N_assets, k. cbn [final db].
      unfold partly_whitelisted, insert_params.
      by rewrite firstn_map, update_params_eq, take_N_assets.
    + exists N_assets, N_assets. cbn [final db]. apply whitelisted_partly.
Qed.

(** The events of the body are a prefix of the events of a complete run. *)
Lemma fix_detected_spam_tokens_body_trace c w :
  ∃ evs,
    trace (final (fix_detected_spam_tokens_body c w)) = (trace w ++ evs)%list ∧
    evs `prefix_of` step_events (clock w (clock_reads w)).
Proof.
  rewrite fix_detected_spam_tokens_body_spec. cbn zeta.
  destruct (first_fault N_assets (faults w)) as [[k e]|].
  - eexists; split; [done|]. rewrite update_params_eq. unfold step_events.
    rewrite <-(take_drop k ASSETS_TO_WHITELIST) at 2. rewrite map_app, <-app_assoc.
    by eexists.
  - destruct (first_fault N_assets (drop N_assets (faults w))) as [[k e]|].
    + eexists; split; [done|]. rewrite update_params_eq. unfold step_events.
      do 2 apply prefix_app. unfold insert_params.
      rewrite firstn_map, map_event_of_insert.
      rewrite <-(take_drop k ASSETS_TO_WHITELIST) at 2. rewrite map_app.
      by eexists.
    + eexists; split; [done|]. done.
Qed.

Lemma same_behaviour_fields {A} (r1 r2 : result A) :
  same_behaviour r1 r2 →
  outcome r1 = outcome r2 ∧ db (final r1) = db (final r2) ∧
  clock (final r1) = clock (final r2) ∧
  clock_reads (final r1) = clock_reads (final r2) ∧
  faults (final r1) = faults (final r2) ∧ trace (final r1) = trace (final r2).
Proof. intros [Ho Hf]. by apply erase_log_eq in Hf. Qed.

(** A run of the body against a store that works. *)
Lemma fix_detected_spam_tokens_body_ok c w :
  store_works w →
  fix_detected_spam_tokens_body c w =
  Ok tt (World (whitelisted (clock w (clock_reads w)) (db w)) (clock w)
           (S (clock_reads w)) (drop N_assets (drop N_assets (faults w)))
           (trace w ++ step_events (clock w (clock_reads w))) (log w)).
Proof.
  intros [H1 H2]%store_works_split.
  by rewrite fix_detected_spam_tokens_body_spec, H1, H2.
Qed.

Lemma fix_detected_spam_tokens_outcome c w :
  outcome (fix_detected_spam_tokens c w) =
  match first_fault (N_assets + N_assets) (faults w) with
  | Some (_, e) => inr e
  | None => inl tt
  end.
Proof.
  destruct (fix_detected_spam_tokens_transparent c w) as [-> _].
  apply fix_detected_spam_tokens_body_outcome.
Qed.

(** A run of the decorated function against a store that works. *)
Lemma fix_detected_spam_tokens_ok c w :
  store_works w →
  ∃ w', fix_detected_spam_tokens c w = Ok tt w' ∧
    db w' = whitelisted (clock w (clock_reads w)) (db w) ∧
    clock w' = clock w ∧
    clock_reads w' = S (clock_reads w) ∧
    trace w' = (trace w ++ step_events (clock w (clock_reads w)))%list.
Proof.
  intros Hw.
  destruct (same_behaviour_fields _ _ (fix_detected_spam_tokens_transparent c w))
    as (Ho & Hd & Hc & Hr & _ & Ht).
  rewrite (fix_detected_spam_tokens_body_ok c w Hw) in Ho, Hd, Hc, Hr, Ht.
  cbn [outcome final db clock clock_reads trace] in Ho, Hd, Hc, Hr, Ht.
  exists (final (fix_detected_spam_tokens c w)).
  split; [exact (result_ok_inv _ _ Ho)|].
  split; [exact Hd|]. split; [exact Hc|]. split; [exact Hr|exact Ht].
Qed.

Lemma fix_detected_spam_tokens_final_db c w :
  ∃ k1 k2,
    db (final (fix_detected_spam_tokens c w)) =
    partly_whitelisted k1 k2 (clock w (clock_reads w)) (db w).
Proof.
  destruct (same_behaviour_fields _ _ (fix_detected_spam_tokens_transparent c w))
    as (_ & -> & _).
  apply fix_detected_spam_tokens_body_final_db.
Qed.

Lemma fix_detected_spam_tokens_trace c w :
  ∃ evs,
    trace (final (fix_detected_spam_tokens c w)) = (trace w ++ evs)%list ∧
    evs `prefix_of` step_events (clock w (clock_reads w)).
Proof.
  destruct (same_behaviour_fields _ _ (fix_detected_spam_tokens_transparent c w))
    as (_ & _ & _ & _ & _ & ->).
  apply fix_detected_spam_tokens_body_trace.
Qed.

(** [migrate_to_v8]'s body is the decorated step inside [write_ctx]. *)
Lemma migrate_to_v8_body_unfold conn w :
  migrate_to_v8_body conn w =
  match fix_detected_spam_tokens (CursorOf conn) (record EvBegin w) with
  | Ok a w' => Ok a (record EvCommit w')
  | Err e w' => Err e (record EvRollback (set_db (db w) w'))
  end.
Proof. done. Qed.

Lemma migrate_to_v8_body_outcome conn w :
  outcome (migrate_to_v8_body conn w) =
  outcome (fix_detected_spam_tokens (CursorOf conn) (record EvBegin w)).
Proof.
  rewrite migrate_to_v8_body_unfold.
  by destruct (fix_detected_spam_tokens _ _).
Qed.

Lemma migrate_to_v8_outcome conn w :
  outcome (migrate_to_v8 conn w) =
  match first_fault (N_assets + N_assets) (faults w) with
  | Some (_, e) => inr e
  | None => inl tt
  end.
Proof.
  destruct (migrate_to_v8_transparent conn w) as [-> _].
  rewrite migrate_to_v8_body_outcome.
  exact (fix_detected_spam_tokens_outcome (CursorOf conn) (record EvBegin w)).
Qed.

(** A run of the upgrade against a store that works: the step's result,
    committed. *)
Lemma migrate_to_v8_ok conn w :
  store_works w →
  ∃ w', migrate_to_v8 conn w = Ok tt w' ∧
    db w' = whitelisted (clock w (clock_reads w)) (db w) ∧
    clock_reads w' = S (clock_reads w) ∧
    trace w' =
      (trace w ++ [EvBegin] ++ step_events (clock w (clock_reads w)) ++ [EvCommit])%list.
Proof.
  intros Hw.
  destruct (same_behaviour_fields _ _ (migrate_to_v8_transparent conn w))
    as (Ho & Hd & _ & Hr & _ & Ht).
  rewrite migrate_to_v8_body_unfold in Ho, Hd, Hr, Ht.
  destruct (fix_detected_spam_tokens_ok (CursorOf conn) (record EvBegin w))
    as (w1 & E & Hd1 & _ & Hr1 & Ht1); [exact Hw|].
  rewrite E in Ho, Hd, Hr, Ht.
  cbn [outcome final db clock clock_reads trace record] in Ho, Hd, Hr, Ht, Hd1, Hr1, Ht1.
  exists (final (migrate_to_v8 conn w)).
  split; [exact (result_ok_inv _ _ Ho)|].
  rewrite Hd, Hr, Ht, Hd1, Hr1, Ht1, <-!app_assoc.
  repeat split; reflexivity.
Qed.

(** A failed upgrade: the store is what it was, and the trace shows a
    transaction that was opened, ran part of the step and was rolled back. *)
Lemma migrate_to_v8_err conn w e w' :
  migrate_to_v8 conn w = Err e w' →
  db w' = db w ∧
  ∃ evs, trace w' = (trace w ++ [EvBegin] ++ evs ++ [EvRollback])%list ∧
    evs `prefix_of` step_events (clock w (clock_reads w)).
Proof.
  intros E.
  destruct (same_behaviour_fields _ _ (migrate_to_v8_transparent conn w))
    as (Ho & Hd & _ & _ & _ & Ht).
  rewrite E, migrate_to_v8_body_unfold in Ho, Hd, Ht.
  destruct (fix_detected_spam_tokens_trace (CursorOf conn) (record EvBegin w))
    as (evs & Ht1 & Hpre).
  destruct (fix_detected_spam_tokens _ _) as [a w1|e1 w1]; [discriminate Ho|].
  cbn [outcome final db clock clock_reads trace record set_db] in Hd, Ht, Ht1, Hpre.
  split; [exact Hd|].
  exists evs. split; [|exact Hpre]. rewrite Ht, Ht1, <-!app_assoc. reflexivity.
Qed.

(** ** The tables after a run, complete or not *)

Lemma partly_whitelisted_evm_tokens k1 k2 ts d (asset_id : string) :
  evm_tokens (partly_whitelisted k1 k2 ts d) !! asset_id =
  if decide (asset_id ∈ take k1 ASSETS_TO_WHITELIST)
  then clear_protocol <$> evm_tokens d !! asset_id
  else evm_tokens d !! asset_id.
Proof.
  unfold partly_whitelisted.
  rewrite run_all_insert_evm_tokens. apply run_all_update_evm_tokens.
Qed.

Lemma partly_whitelisted_general_cache k1 k2 ts d (kv : string * string) :
  general_cache (partly_whitelisted k1 k2 ts d) !! kv =
  match general_cache d !! kv with
  | Some t => Some t
  | None =>
      if decide (kv.1 = SPAM_ASSET_FALSE_POSITIVE ∧ kv.2 ∈ take k2 ASSETS_TO_WHITELIST)
      then Some ts else None
  end.
Proof.
  unfold partly_whitelisted.
  rewrite run_all_insert_general_cache. by rewrite run_all_update_general_cache.
Qed.

Lemma partly_whitelisted_other_tables k1 k2 ts d :
  other_tables (partly_whitelisted k1 k2 ts d) = other_tables d.
Proof.
  unfold partly_whitelisted.
  by rewrite run_all_insert_other_tables, run_all_update_other_tables.
Qed.

Lemma whitelisted_evm_tokens ts d (asset_id : string) :
  evm_tokens (whitelisted ts d) !! asset_id =
  if decide (asset_id ∈ ASSETS_TO_WHITELIST)
  then clear_protocol <$> evm_tokens d !! asset_id
  else evm_tokens d !! asset_id.
Proof.
  rewrite whitelisted_partly, partly_whitelisted_evm_tokens.
  by rewrite take_N_assets.
Qed.

Lemma whitelisted_general_cache ts d (kv : string * string) :
  general_cache (whitelisted ts d) !! kv =
  match general_cache d !! kv with
  | Some t => Some t
  | None =>
      if decide (kv.1 = SPAM_ASSET_FALSE_POSITIVE ∧ kv.2 ∈ ASSETS_TO_WHITELIST)
      then Some ts else None
  end.
Proof.
  rewrite whitelisted_partly, partly_whitelisted_general_cache.
  by rewrite take_N_assets.
Qed.

Lemma whitelisted_other_tables ts d : other_tables (whitelisted ts d) = other_tables d.
Proof. rewrite whitelisted_partly. apply partly_whitelisted_other_tables. Qed.

(** The table has the same identifiers before and after. *)
Lemma partly_whitelisted_dom k1 k2 ts d :
  dom (evm_tokens (partly_whitelisted k1 k2 ts d)) = dom (evm_tokens d).
Proof.
  apply set_eq. intros asset_id. rewrite !elem_of_dom.
  rewrite partly_whitelisted_evm_tokens.
  case_decide; [|done]. by rewrite fmap_is_Some.
Qed.

(** Every row that existed in the cache is still there, unchanged. *)
Lemma partly_whitelisted_cache_subseteq k1 k2 ts d :
  general_cache d ⊆ general_cache (partly_whitelisted k1 k2 ts d).
Proof.
  apply map_subseteq_spec. intros kv t E.
  by rewrite partly_whitelisted_general_cache, E.
Qed.

(** Only rows of listed identifiers differ. *)
Lemma updated_rows_listed k1 k2 ts d :
  updated_rows d (partly_whitelisted k1 k2 ts d) ⊆ list_to_set ASSETS_TO_WHITELIST.
Proof.
  intros asset_id [Hne _]%elem_of_filter. apply elem_of_list_to_set.
  rewrite partly_whitelisted_evm_tokens in Hne.
  case_decide as Hin; [|done]. by eapply subseteq_take.
Qed.

Lemma updated_rows_size k1 k2 ts d :
  (size (updated_rows d (partly_whitelisted k1 k2 ts d)) ≤ N_assets)%nat.
Proof.
  unfold N_assets. rewrite <-(size_list_to_set (C:=gset string)) by
    apply ASSETS_TO_WHITELIST_NoDup.
  apply subseteq_size, updated_rows_listed.
Qed.

(** Each insert adds at most one row. *)
Lemma run_all_insert_size_le (ps : list (string * string * Z)) (d : database) :
  (size (general_cache (run_all INSERT_OR_IGNORE_INTO_general_cache ps d))
   ≤ size (general_cache d) + length ps)%nat.
Proof.
  revert d. induction ps as [|[[key value] ts] ps IH]; intros d.
  - cbn. lia.
  - rewrite run_all_cons. etrans; [apply IH|]. cbn [length run_statement].
    destruct (general_cache d !! (key, value)) eqn:E; [lia|].
    cbn [general_cache set_general_cache].
    rewrite map_size_insert_None by done. lia.
Qed.

Lemma partly_whitelisted_cache_size k1 k2 ts d :
  (size (general_cache (partly_whitelisted k1 k2 ts d))
   ≤ size (general_cache d) + N_assets)%nat.
Proof.
  unfold partly_whitelisted. etrans; [apply run_all_insert_size_le|].
  rewrite run_all_update_general_cache, length_map, length_take.
  unfold N_assets. lia.
Qed.

(** Inserting the row of an identifier leaves the other listed identifiers
    as recorded or not as they were. *)
Lemma not_recorded_insert x ts d (ids : list string) :
  x ∉ ids →
  not_recorded
    (set_general_cache (<[(SPAM_ASSET_FALSE_POSITIVE, x) := ts]> (general_cache d)) d)
    ids
  = not_recorded d ids.
Proof.
  unfold not_recorded. induction ids as [|y ids IH]; intros Hx; [done|].
  apply not_elem_of_cons in Hx as [Hne Hx].
  rewrite !filter_cons, IH by done. cbn [general_cache set_general_cache].
  rewrite lookup_insert_ne by congruence. done.
Qed.

(** With no identifier listed twice, the cache grows by exactly one row per
    listed identifier that was not recorded. *)
Lemma run_all_insert_size ts (ids : list string) (d : database) :
  NoDup ids →
  size (general_cache
          (run_all INSERT_OR_IGNORE_INTO_general_cache
             (map (fun asset_id => (SPAM_ASSET_FALSE_POSITIVE, asset_id, ts)) ids) d))
  = (size (general_cache d) + length (not_recorded d ids))%nat.
Proof.
  revert d. induction ids as [|x ids IH]; intros d Hnd.
  - cbn. lia.
  - apply NoDup_cons in Hnd as [Hx Hnd].
    cbn [map]. rewrite run_all_cons, IH by done.
    unfold not_recorded at 2. rewrite filter_cons. fold (not_recorded d ids).
    cbn [run_statement].
    destruct (general_cache d !! (SPAM_ASSET_FALSE_POSITIVE, x)) eqn:E.
    + rewrite decide_False by done. done.
    + rewrite decide_True by done. rewrite not_recorded_insert by done.
      cbn [general_cache set_general_cache length].
      rewrite map_size_insert_None by done. lia.
Qed.

Lemma whitelisted_cache_size ts d :
  size (general_cache (whitelisted ts d))
  = (size (general_cache d) + length (not_recorded d ASSETS_TO_WHITELIST))%nat.
Proof.
  unfold whitelisted, insert_params.
  rewrite run_all_insert_size by apply ASSETS_TO_WHITELIST_NoDup.
  unfold not_recorded. by rewrite run_all_update_general_cache.
Qed.

Lemma example_world_works : store_works example_world.
Proof. apply first_fault_nil. Defined.

Lemma BC_listed : BC ∈ ASSETS_TO_WHITELIST.
Proof. apply (bool_decide_unpack _). vm_compute. exact I. Defined.

Lemma CRO_listed : CRO ∈ ASSETS_TO_WHITELIST.
Proof. apply (bool_decide_unpack _). vm_compute. exact I. Defined.

Lemma DAI_not_listed : DAI ∉ ASSETS_TO_WHITELIST.
Proof. apply (bool_decide_unpack _). vm_compute. exact I. Defined.

(** * The claims *)

(** C1. For every store, a run of [fix_detected_spam_tokens] against a store
    that raises nothing returns, and afterwards: every [evm_tokens] row whose
    identifier is listed has [protocol] NULL; every listed identifier that had
    no cache row has the row (SPAM_ASSET_FALSE_POSITIVE, identifier) stamped
    with the reading of the clock; a cache row that existed is kept as it was
    (insert if absent); and the cache grew by exactly one row per listed
    identifier that was not recorded. *)
Theorem fix_detected_spam_tokens_clears_and_records (c : DBCursor) (w : world) :
  store_works w →
  ∃ w', fix_detected_spam_tokens c w = Ok tt w' ∧
    (∀ asset_id row, asset_id ∈ ASSETS_TO_WHITELIST →
       evm_tokens (db w') !! asset_id = Some row → protocol row = None) ∧
    (∀ asset_id, asset_id ∈ ASSETS_TO_WHITELIST →
       general_cache (db w) !! (SPAM_ASSET_FALSE_POSITIVE, asset_id) = None →
       general_cache (db w') !! (SPAM_ASSET_FALSE_POSITIVE, asset_id)
       = Some (clock w (clock_reads w))) ∧
    (∀ asset_id t, asset_id ∈ ASSETS_TO_WHITELIST →
       general_cache (db w) !! (SPAM_ASSET_FALSE_POSITIVE, asset_id) = Some t →
       general_cache (db w') !! (SPAM_ASSET_FALSE_POSITIVE, asset_id) = Some t) ∧
    size (general_cache (db w'))
    = (size (general_cache (db w))
       + length (not_recorded (db w) ASSETS_TO_WHITELIST))%nat.
Proof.
  intros Hw.
  destruct (fix_detected_spam_tokens_ok c w Hw) as (w' & E & Hd & _).
  exists w'. split; [exact E|]. rewrite Hd. split; [|split; [|split]].
  - intros asset_id row Hin Hrow.
    rewrite whitelisted_evm_tokens, decide_True in Hrow by exact Hin.
    destruct (evm_tokens (db w) !! asset_id) as [r|]; [|discriminate Hrow].
    injection Hrow as <-. reflexivity.
  - intros asset_id Hin Hnone.
    rewrite whitelisted_general_cache, Hnone. cbn [fst snd].
    rewrite decide_True; [reflexivity|]. split; [reflexivity|exact Hin].
  - intros asset_id t Hin Hsome.
    rewrite whitelisted_general_cache, Hsome. reflexivity.
  - apply whitelisted_cache_size.
Qed.

(** In the example store, [CRO] was not recorded: it gets its cache row,
    stamped with the clock's reading. *)
Lemma fix_detected_spam_tokens_clears_and_records_witness :
  general_cache (db (final (fix_detected_spam_tokens example_cursor example_world)))
    !! (SPAM_ASSET_FALSE_POSITIVE, CRO) = Some 1717000000.
Proof.
  destruct (fix_detected_spam_tokens_clears_and_records example_cursor example_world
              example_world_works) as (w' & E & _ & Hnew & _).
  rewrite E. apply (Hnew CRO CRO_listed). vm_compute. reflexivity.
Defined.

Lemma database_eq (d d' : database) :
  evm_tokens d = evm_tokens d' → general_cache d = general_cache d' →
  other_tables d = other_tables d' → d = d'.
Proof. destruct d, d'; cbn. by intros -> -> ->. Qed.

(** A second complete run, at whatever time, changes nothing. *)
Lemma whitelisted_idemp ts ts' d :
  whitelisted ts' (whitelisted ts d) = whitelisted ts d.
Proof.
  apply database_eq.
  - apply map_eq. intros asset_id. rewrite !whitelisted_evm_tokens.
    case_decide; [|reflexivity].
    by destruct (evm_tokens d !! asset_id).
  - apply map_eq. intros kv. rewrite !whitelisted_general_cache.
    destruct (general_cache d !! kv); [reflexivity|].
    by case_decide.
  - by rewrite !whitelisted_other_tables.
Qed.

(** C2. Re-running [fix_detected_spam_tokens] against any store, with some
    or all of the cache rows already there: the run returns (no error); every
    cache row that existed is kept with its value and timestamp; a row that
    was not there and is there afterwards is the row of a listed identifier;
    every listed identifier is recorded afterwards; and a further run from
    the resulting store, whenever it happens, leaves the store as the first
    run left it. *)
Theorem fix_detected_spam_tokens_rerun (c : DBCursor) (w : world) :
  store_works w →
  ∃ w1, fix_detected_spam_tokens c w = Ok tt w1 ∧
    general_cache (db w) ⊆ general_cache (db w1) ∧
    (∀ kv, general_cache (db w) !! kv = None →
       is_Some (general_cache (db w1) !! kv) →
       kv.1 = SPAM_ASSET_FALSE_POSITIVE ∧ kv.2 ∈ ASSETS_TO_WHITELIST) ∧
    (∀ asset_id, asset_id ∈ ASSETS_TO_WHITELIST →
       is_Some (general_cache (db w1) !! (SPAM_ASSET_FALSE_POSITIVE, asset_id))) ∧
    (∀ w1', db w1' = db w1 → store_works w1' →
       ∃ w2, fix_detected_spam_tokens c w1' = Ok tt w2 ∧ db w2 = db w1).
Proof.
  intros Hw.
  destruct (fix_detected_spam_tokens_ok c w Hw) as (w1 & E & Hd & _).
  exists w1. split; [exact E|]. rewrite Hd. split; [|split; [|split]].
  - rewrite whitelisted_partly. apply partly_whitelisted_cache_subseteq.
  - intros kv Hnone [t Ht].
    rewrite whitelisted_general_cache, Hnone in Ht.
    case_decide as Hin; [exact Hin|discriminate Ht].
  - intros asset_id Hin. rewrite whitelisted_general_cache.
    destruct (general_cache (db w) !! _); [by eexists|].
    cbn [fst snd]. rewrite decide_True; [by eexists|]. split; [reflexivity|exact Hin].
  - intros w1' Hdb Hw1'.
    destruct (fix_detected_spam_tokens_ok c w1' Hw1') as (w2 & E2 & Hd2 & _).
    exists w2. split; [exact E2|].
    rewrite Hd2, Hdb. apply whitelisted_idemp.
Qed.

(** In the example store, where one of the 41 cache rows exists, a second
    run right after the first leaves the store as the first run left it. *)
Lemma fix_detected_spam_tokens_rerun_witness :
  db (final (fix_detected_spam_tokens example_cursor
               (final (fix_detected_spam_tokens example_cursor example_world))))
  = db (final (fix_detected_spam_tokens example_cursor example_world)).
Proof.
  destruct (fix_detected_spam_tokens_rerun example_cursor example_world
              example_world_works) as (w1 & E & _ & _ & _ & Hagain).
  assert (w1 = final (fix_detected_spam_tokens example_cursor example_world)) as Hw1
    by (rewrite E; reflexivity).
  destruct (Hagain w1 eq_refl) as (w2 & E2 & Hd2).
  - rewrite Hw1. vm_compute. reflexivity.
  - rewrite <-Hw1, E2. exact Hd2.
Defined.

(** The events of a complete run, cut after the first [k] updates. *)
Lemma take_step_events_updates ts k :
  (k ≤ N_assets)%nat →
  take k (step_events ts) = map EvUpdate (take k ASSETS_TO_WHITELIST).
Proof.
  intros Hk. unfold step_events.
  rewrite take_app_le by (rewrite length_map; exact Hk). apply firstn_map.
Qed.

(** The events of a complete run, cut after the first [k] inserts. *)
Lemma take_step_events_inserts ts k :
  take (S (N_assets + k)) (step_events ts) =
  (map EvUpdate ASSETS_TO_WHITELIST ++ [EvTsNow ts] ++
   map (fun asset_id => EvInsert SPAM_ASSET_FALSE_POSITIVE asset_id ts)
     (take k ASSETS_TO_WHITELIST))%list.
Proof.
  unfold step_events. replace (S (N_assets + k)) with (N_assets + S k)%nat by lia.
  rewrite take_app_add' by (rewrite length_map; reflexivity).
  f_equal. change ([EvTsNow ts] ++ ?l)%list with (EvTsNow ts :: l).
  rewrite firstn_cons, firstn_map. reflexivity.
Qed.

(** The body when the store first raises at statement [k]: the error, the
    store reached by then and the events caused by then. *)
Lemma fix_detected_spam_tokens_body_at_fault c w k e :
  (k < N_assets + N_assets)%nat →
  faults w !! k = Some (Some e) →
  (∀ j e', (j < k)%nat → faults w !! j ≠ Some (Some e')) →
  ∃ w1, fix_detected_spam_tokens_body c w = Err e w1 ∧
    db w1 = partly_whitelisted (Nat.min k N_assets) (k - N_assets)
              (clock w (clock_reads w)) (db w) ∧
    trace w1 = (trace w ++ events_before_fault k (clock w (clock_reads w)))%list.
Proof.
  intros Hk Hat Hbefore. unfold events_before_fault.
  destruct (decide (k < N_assets)%nat) as [Hlt|Hge].
  - pose proof (first_fault_complete _ _ _ _ Hlt Hat Hbefore) as Hff.
    rewrite fix_detected_spam_tokens_body_spec, Hff. cbn zeta.
    eexists. split; [reflexivity|]. cbn [db trace]. split.
    + unfold partly_whitelisted.
      rewrite Nat.min_l by lia. replace (k - N_assets)%nat with 0%nat by lia.
      rewrite update_params_eq, take_0. reflexivity.
    + rewrite take_step_events_updates by lia. by rewrite update_params_eq.
  - assert (first_fault N_assets (faults w) = None) as H1.
    { apply first_fault_None_intro. intros j e' Hj. apply Hbefore. lia. }
    assert (first_fault N_assets (drop N_assets (faults w))
            = Some ((k - N_assets)%nat, e)) as H2.
    { apply first_fault_complete; [lia| |].
      - rewrite lookup_drop. replace (N_assets + (k - N_assets))%nat with k by lia.
        exact Hat.
      - intros j e' Hj. rewrite lookup_drop. apply Hbefore. lia. }
    rewrite fix_detected_spam_tokens_body_spec, H1, H2. cbn zeta.
    eexists. split; [reflexivity|]. cbn [db trace]. split.
    + unfold partly_whitelisted, insert_params.
      rewrite Nat.min_r by lia.
      by rewrite take_N_assets, firstn_map, update_params_eq.
    + replace (S k) with (S (N_assets + (k - N_assets))) by lia.
      rewrite take_step_events_inserts. unfold insert_params.
      by rewrite firstn_map, map_event_of_insert, update_params_eq.
Qed.

(** The upgrade when the store first raises at statement [k]: the error is
    raised, the store is rolled back, and the trace and the store the step
    had reached show what ran inside the transaction. *)
Lemma migrate_to_v8_at_fault conn w k e :
  (k < N_assets + N_assets)%nat →
  faults w !! k = Some (Some e) →
  (∀ j e', (j < k)%nat → faults w !! j ≠ Some (Some e')) →
  ∃ w', migrate_to_v8 conn w = Err e w' ∧
    db w' = db w ∧
    trace w' =
      (trace w ++ [EvBegin] ++ events_before_fault k (clock w (clock_reads w)) ++
       [EvRollback])%list ∧
    db (final (fix_detected_spam_tokens (CursorOf conn) (record EvBegin w)))
    = partly_whitelisted (Nat.min k N_assets) (k - N_assets)
        (clock w (clock_reads w)) (db w).
Proof.
  intros Hk Hat Hbefore.
  destruct (fix_detected_spam_tokens_body_at_fault (CursorOf conn) (record EvBegin w)
              k e Hk Hat Hbefore) as (w1 & Eb & Hd1 & Ht1).
  cbn [db clock clock_reads trace record] in Hd1, Ht1.
  destruct (same_behaviour_fields _ _
              (fix_detected_spam_tokens_transparent (CursorOf conn) (record EvBegin w)))
    as (Hfo & Hfd & _ & _ & _ & Hft).
  rewrite Eb in Hfo, Hfd, Hft. cbn [outcome final] in Hfo, Hfd, Hft.
  destruct (same_behaviour_fields _ _ (migrate_to_v8_transparent conn w))
    as (Ho & Hd & _ & _ & _ & Ht).
  rewrite migrate_to_v8_body_unfold in Ho, Hd, Ht.
  destruct (fix_detected_spam_tokens (CursorOf conn) (record EvBegin w))
    as [a w2|e2 w2]; [discriminate Hfo|].
  injection Hfo as ->.
  cbn [outcome final db trace record set_db] in Ho, Hd, Ht, Hfd, Hft.
  exists (final (migrate_to_v8 conn w)).
  split; [exact (result_err_inv _ _ Ho)|]. split; [exact Hd|]. split.
  - rewrite Ht, Hft, Ht1, <-!app_assoc. reflexivity.
  - cbn [final]. rewrite Hfd. exact Hd1.
Qed.

(** C3. [migrate_to_v8] runs the step inside one write transaction.
    - Against a store that raises nothing it returns: the store is the step's
      result (every listed row cleared, every listed identifier recorded),
      and the trace is the opening of the transaction, the 41 updates, the
      clock reading, the 41 inserts, and the commit.
    - When the store first raises at statement [k] of the step, the upgrade
      raises that error; the step had by then run its first [k] statements
      inside the transaction (the store it had reached and its events are
      given); the trace ends with the rollback and the store is what it was
      before the upgrade.
    - Whenever the upgrade raises, the store is what it was before; whenever
      it returns, the store is the step's result, committed. *)
Theorem migrate_to_v8_atomic (conn : DBConnection) (w : world) :
  (store_works w →
   ∃ w', migrate_to_v8 conn w = Ok tt w' ∧
     db w' = whitelisted (clock w (clock_reads w)) (db w) ∧
     (∀ asset_id row, asset_id ∈ ASSETS_TO_WHITELIST →
        evm_tokens (db w) !! asset_id = Some row →
        evm_tokens (db w') !! asset_id = Some (clear_protocol row)) ∧
     (∀ asset_id, asset_id ∈ ASSETS_TO_WHITELIST →
        is_Some (general_cache (db w') !! (SPAM_ASSET_FALSE_POSITIVE, asset_id))) ∧
     trace w' =
       (trace w ++ [EvBegin] ++ step_events (clock w (clock_reads w)) ++
        [EvCommit])%list) ∧
  (∀ k e, (k < N_assets + N_assets)%nat →
     faults w !! k = Some (Some e) →
     (∀ j e', (j < k)%nat → faults w !! j ≠ Some (Some e')) →
     ∃ w', migrate_to_v8 conn w = Err e w' ∧
       db w' = db w ∧
       trace w' =
         (trace w ++ [EvBegin] ++
          events_before_fault k (clock w (clock_reads w)) ++ [EvRollback])%list ∧
       db (final (fix_detected_spam_tokens (CursorOf conn) (record EvBegin w)))
       = partly_whitelisted (Nat.min k N_assets) (k - N_assets)
           (clock w (clock_reads w)) (db w)) ∧
  (∀ e w', migrate_to_v8 conn w = Err e w' →
     db w' = db w ∧
     ∃ evs, trace w' = (trace w ++ [EvBegin] ++ evs ++ [EvRollback])%list ∧
       evs `prefix_of` step_events (clock w (clock_reads w))) ∧
  (∀ w', migrate_to_v8 conn w = Ok tt w' →
     db w' = whitelisted (clock w (clock_reads w)) (db w) ∧
     trace w' =
       (trace w ++ [EvBegin] ++ step_events (clock w (clock_reads w)) ++ [EvCommit])%list).
Proof.
  split; [|split; [|split]].
  - intros Hw.
    destruct (migrate_to_v8_ok conn w Hw) as (w' & E & Hd & _ & Ht).
    exists w'. split; [exact E|]. split; [exact Hd|]. rewrite Hd.
    split; [|split; [|exact Ht]].
    + intros asset_id row Hin Hrow.
      rewrite whitelisted_evm_tokens, decide_True, Hrow by exact Hin. reflexivity.
    + intros asset_id Hin. rewrite whitelisted_general_cache.
      destruct (general_cache (db w) !! _); [by eexists|].
      cbn [fst snd]. rewrite decide_True; [by eexists|].
      split; [reflexivity|exact Hin].
  - intros k e Hk Hat Hbefore. exact (migrate_to_v8_at_fault conn w k e Hk Hat Hbefore).
  - intros e w' E. exact (migrate_to_v8_err conn w e w' E).
  - intros w' E.
    assert (store_works w) as Hw.
    { pose proof (migrate_to_v8_outcome conn w) as Ho. rewrite E in Ho.
      unfold store_works.
      destruct (first_fault (N_assets + N_assets) (faults w)) as [[k e]|];
        [discriminate Ho|reflexivity]. }
    destruct (migrate_to_v8_ok conn w Hw) as (w'' & E' & Hd & _ & Ht).
    rewrite E in E'. injection E' as <-. split; [exact Hd|exact Ht].
Qed.

(** In the failing world the store raises at statement 41, the first insert,
    right after the 41 updates: the upgrade raises that error; inside the
    transaction the step had cleared [BC]; the trace is the opening, the 41
    updates, the clock reading and the rollback; and the store is back to
    what it was. In the example world, where the store works, the upgrade
    returns and [CRO] is recorded. *)
Lemma migrate_to_v8_atomic_witness :
  (outcome (migrate_to_v8 GlobalDBConnection failing_world)
     = inr (OperationalError "disk I/O error") ∧
   evm_tokens (db (final (fix_detected_spam_tokens example_cursor
                            (record EvBegin failing_world)))) !! BC
     ≠ evm_tokens (db failing_world) !! BC ∧
   trace (final (migrate_to_v8 GlobalDBConnection failing_world))
     = ([EvBegin] ++ map EvUpdate ASSETS_TO_WHITELIST ++ [EvTsNow 1717000000] ++
        [EvRollback])%list ∧
   db (final (migrate_to_v8 GlobalDBConnection failing_world)) = db failing_world) ∧
  (outcome (migrate_to_v8 GlobalDBConnection example_world) = inl tt ∧
   is_Some (general_cache (db (final (migrate_to_v8 GlobalDBConnection example_world)))
              !! (SPAM_ASSET_FALSE_POSITIVE, CRO))).
Proof.
  destruct (migrate_to_v8_atomic GlobalDBConnection failing_world)
    as (_ & Hfail & _).
  destruct (Hfail 41%nat (OperationalError "disk I/O error"))
    as (w' & E & Hd & Ht & _).
  { vm_compute. lia. }
  { vm_compute. reflexivity. }
  { intros j e' Hj. cbn [faults failing_world].
    rewrite lookup_app_l by (rewrite length_replicate; exact Hj).
    rewrite lookup_replicate_2 by exact Hj. discriminate. }
  destruct (migrate_to_v8_atomic GlobalDBConnection example_world)
    as (Hok & _).
  destruct (Hok example_world_works) as (w'' & E' & _ & _ & Hrec & _).
  rewrite E, E'. cbn [outcome final].
  split; [|split; [reflexivity|exact (Hrec CRO CRO_listed)]].
  split; [reflexivity|]. split; [vm_compute; discriminate|].
  split; [|exact Hd].
  rewrite Ht. vm_compute. reflexivity.
Defined.




(** C5. An error [e] that the store raises at one of the 2N statements of
    the step (the first that it raises) is what [fix_detected_spam_tokens]
    and [migrate_to_v8] raise; an error that either raises is an error the
    store raised at one of those statements; and when the store raises at
    none of them both return, with no value but [tt]. *)
Theorem store_errors_propagate_unmodified (conn : DBConnection) (c : DBCursor)
    (w : world) :
  (∀ k e, (k < N_assets + N_assets)%nat → faults w !! k = Some (Some e) →
     (∀ j e', (j < k)%nat → faults w !! j ≠ Some (Some e')) →
     outcome (fix_detected_spam_tokens c w) = inr e ∧
     outcome (migrate_to_v8 conn w) = inr e) ∧
  (∀ e, outcome (fix_detected_spam_tokens c w) = inr e ∨
        outcome (migrate_to_v8 conn w) = inr e →
     ∃ k, (k < N_assets + N_assets)%nat ∧ faults w !! k = Some (Some e)) ∧
  ((∀ k e, (k < N_assets + N_assets)%nat → faults w !! k ≠ Some (Some e)) →
     outcome (fix_detected_spam_tokens c w) = inl tt ∧
     outcome (migrate_to_v8 conn w) = inl tt).
Proof.
  rewrite fix_detected_spam_tokens_outcome, migrate_to_v8_outcome.
  split; [|split].
  - intros k e Hk Hat Hbefore.
    rewrite (first_fault_complete _ _ k e Hk Hat Hbefore). split; reflexivity.
  - intros e He.
    destruct (first_fault (N_assets + N_assets) (faults w)) as [[k e']|] eqn:E.
    + assert (e' = e) as -> by (destruct He as [He|He]; by injection He).
      exists k. split; [eapply first_fault_lt, E|eapply first_fault_lookup, E].
    + destruct He as [He|He]; discriminate He.
  - intros Hnone. rewrite (first_fault_None_intro _ _ Hnone). split; reflexivity.
Qed.

(** In the failing world the store raises "disk I/O error" at its 42nd
    statement: both functions raise exactly that. *)
Lemma store_errors_propagate_unmodified_witness :
  outcome (fix_detected_spam_tokens example_cursor failing_world)
    = inr (OperationalError "disk I/O error") ∧
  outcome (migrate_to_v8 GlobalDBConnection failing_world)
    = inr (OperationalError "disk I/O error").
Proof.
  destruct (store_errors_propagate_unmodified GlobalDBConnection example_cursor
              failing_world) as [Hraise _].
  apply (Hraise 41%nat).
  - vm_compute. lia.
  - vm_compute. reflexivity.
  - intros j e' Hj. cbn [faults failing_world].
    rewrite lookup_app_l by (rewrite length_replicate; exact Hj).
    rewrite lookup_replicate_2 by exact Hj. discriminate.
Defined.

(** C6. Whatever the store held and wherever the run stopped (it returned,
    or the store raised at some statement), [fix_detected_spam_tokens] left:
    every other table as it was; [evm_tokens] with the same identifiers; each
    of its rows either as it was or, for a listed identifier only, with
    [protocol] NULL and every other column as it was; at most N rows changed;
    every cache row that existed as it was; as new cache rows only rows of
    listed identifiers under SPAM_ASSET_FALSE_POSITIVE, at most N of them. *)
Theorem fix_detected_spam_tokens_frame (c : DBCursor) (w : world) :
  let d := db w in
  let d' := db (final (fix_detected_spam_tokens c w)) in
  other_tables d' = other_tables d ∧
  dom (evm_tokens d') = dom (evm_tokens d) ∧
  (∀ asset_id row, evm_tokens d !! asset_id = Some row →
     evm_tokens d' !! asset_id = Some row ∨
     (asset_id ∈ ASSETS_TO_WHITELIST ∧
      evm_tokens d' !! asset_id = Some (TokenRow None (other_columns row)))) ∧
  (∀ asset_id, asset_id ∉ ASSETS_TO_WHITELIST →
     evm_tokens d' !! asset_id = evm_tokens d !! asset_id) ∧
  (size (updated_rows d d') ≤ N_assets)%nat ∧
  general_cache d ⊆ general_cache d' ∧
  (∀ kv, general_cache d !! kv = None → is_Some (general_cache d' !! kv) →
     kv.1 = SPAM_ASSET_FALSE_POSITIVE ∧ kv.2 ∈ ASSETS_TO_WHITELIST) ∧
  (size (general_cache d') ≤ size (general_cache d) + N_assets)%nat.
Proof.
  intros d d'. subst d d'.
  destruct (fix_detected_spam_tokens_final_db c w) as (k1 & k2 & ->).
  split; [apply partly_whitelisted_other_tables|].
  split; [apply partly_whitelisted_dom|].
  split; [|split; [|split; [|split; [|split]]]].
  - intros asset_id row Hrow.
    rewrite partly_whitelisted_evm_tokens, Hrow.
    case_decide as Hin; [right|left; reflexivity].
    split; [eapply subseteq_take, Hin|reflexivity].
  - intros asset_id Hnin. rewrite partly_whitelisted_evm_tokens.
    rewrite decide_False; [reflexivity|].
    intros Hin. apply Hnin. eapply subseteq_take, Hin.
  - apply updated_rows_size.
  - apply partly_whitelisted_cache_subseteq.
  - intros kv Hnone [t Ht].
    rewrite partly_whitelisted_general_cache, Hnone in Ht.
    case_decide as Hin; [|discriminate Ht].
    destruct Hin as [Hkey Hin]. split; [exact Hkey|eapply subseteq_take, Hin].
  - apply partly_whitelisted_cache_size.
Qed.

(** In the failing world the run stops after the updates: the unlisted
    [DAI], although flagged as spam, is as it was, [CRO] kept its other
    columns, the other table is as it was, and no cache row was added. *)
Lemma fix_detected_spam_tokens_frame_witness :
  let d' := db (final (fix_detected_spam_tokens example_cursor failing_world)) in
  evm_tokens d' !! DAI
    = Some (TokenRow (Some "spam") [SqlText "A"; SqlInteger 1; SqlInteger 18]) ∧
  evm_tokens d' !! CRO
    = Some (TokenRow None [SqlText "A"; SqlInteger 1; SqlInteger 8]) ∧
  other_tables d' = other_tables example_db ∧
  general_cache example_db ⊆ general_cache d'.
Proof.
  intros d'.
  destruct (fix_detected_spam_tokens_frame example_cursor failing_world)
    as (Hother & _ & _ & Hkeep & _ & Hsub & _).
  split; [|split; [|split]].
  - subst d'. rewrite (Hkeep DAI DAI_not_listed). vm_compute. reflexivity.
  - vm_compute. reflexivity.
  - exact Hother.
  - exact Hsub.
Defined.

(** C7. The decorator is transparent on both functions: for every input
    world the decorated function returns the same value or raises the same
    error as its undecorated body, and leaves the same store, clock, fault
    schedule and trace; only the debug log differs. *)
Theorem enter_exit_debug_log_is_transparent (conn : DBConnection) (c : DBCursor)
    (w : world) :
  (outcome (fix_detected_spam_tokens c w) = outcome (fix_detected_spam_tokens_body c w) ∧
   erase_log (final (fix_detected_spam_tokens c w))
   = erase_log (final (fix_detected_spam_tokens_body c w))) ∧
  (outcome (migrate_to_v8 conn w) = outcome (migrate_to_v8_body conn w) ∧
   erase_log (final (migrate_to_v8 conn w))
   = erase_log (final (migrate_to_v8_body conn w))).
Proof.
  split.
  - exact (fix_detected_spam_tokens_transparent c w).
  - exact (migrate_to_v8_transparent conn w).
Qed.

(** C8. No identifier is listed twice: the identifiers at two different
    positions of [ASSETS_TO_WHITELIST] are different strings. *)
Theorem ASSETS_TO_WHITELIST_no_duplicates (i j : nat) (a b : string) :
  i ≠ j →
  ASSETS_TO_WHITELIST !! i = Some a → ASSETS_TO_WHITELIST !! j = Some b →
  a ≠ b.
Proof.
  intros Hij Ha Hb Hab. subst b. apply Hij.
  exact (NoDup_lookup _ _ _ _ ASSETS_TO_WHITELIST_NoDup Ha Hb).
Qed.

(** Positions 0 and 40, the first and the last of the 41. *)
Lemma ASSETS_TO_WHITELIST_no_duplicates_witness :
  N_assets = 41%nat ∧
  BC ≠ "eip155:1/erc20:0xaA247c0D81B83812e1ABf8bAB078E4540D87e3fB".
Proof.
  split; [vm_compute; reflexivity|].
  apply (ASSETS_TO_WHITELIST_no_duplicates 0 40).
  - lia.
  - vm_compute. reflexivity.
  - vm_compute. reflexivity.
Defined.

(** C9. The update looks at the identifier only: a row of a listed
    identifier ends with [protocol] NULL whatever its [protocol] was, spam or
    any other classification, its other columns kept. *)
Theorem fix_detected_spam_tokens_clears_any_protocol (c : DBCursor) (w : world)
    (asset_id : string) (classification : option string) (columns : list sql_value) :
  store_works w →
  asset_id ∈ ASSETS_TO_WHITELIST →
  evm_tokens (db w) !! asset_id = Some (TokenRow classification columns) →
  ∃ w', fix_detected_spam_tokens c w = Ok tt w' ∧
    evm_tokens (db w') !! asset_id = Some (TokenRow None columns).
Proof.
  intros Hw Hin Hrow.
  destruct (fix_detected_spam_tokens_ok c w Hw) as (w' & E & Hd & _).
  exists w'. split; [exact E|].
  rewrite Hd, whitelisted_evm_tokens, decide_True, Hrow by exact Hin.
  reflexivity.
Qed.

(** In the example store [CRO] carries the protocol "aave", not "spam": it
    is erased all the same. *)
Lemma fix_detected_spam_tokens_clears_any_protocol_witness :
  evm_tokens (db (final (fix_detected_spam_tokens example_cursor example_world)))
    !! CRO = Some (TokenRow None [SqlText "A"; SqlInteger 1; SqlInteger 8]).
Proof.
  destruct (fix_detected_spam_tokens_clears_any_protocol example_cursor example_world
              CRO (Some "aave") [SqlText "A"; SqlInteger 1; SqlInteger 8]
              example_world_works CRO_listed) as (w' & E & Hrow).
  - vm_compute. reflexivity.
  - rewrite E. exact Hrow.
Defined.

(** C10. A run that returns consulted the clock exactly once, after the 41
    updates and before the first insert, and every cache row it added
    carries that one reading. *)
Theorem fix_detected_spam_tokens_single_timestamp (c : DBCursor) (w : world) :
  store_works w →
  ∃ w', fix_detected_spam_tokens c w = Ok tt w' ∧
    clock_reads w' = S (clock_reads w) ∧
    trace w' =
      (trace w ++ map EvUpdate ASSETS_TO_WHITELIST ++
       [EvTsNow (clock w (clock_reads w))] ++
       map (fun asset_id =>
              EvInsert SPAM_ASSET_FALSE_POSITIVE asset_id (clock w (clock_reads w)))
         ASSETS_TO_WHITELIST)%list ∧
    (∀ kv t, general_cache (db w) !! kv = None →
       general_cache (db w') !! kv = Some t → t = clock w (clock_reads w)).
Proof.
  intros Hw.
  destruct (fix_detected_spam_tokens_ok c w Hw) as (w' & E & Hd & _ & Hr & Ht).
  exists w'. split; [exact E|]. split; [exact Hr|]. split; [exact Ht|].
  intros kv t Hnone Hnew.
  rewrite Hd, whitelisted_general_cache, Hnone in Hnew.
  case_decide; [|discriminate Hnew]. injection Hnew as <-. reflexivity.
Qed.

(** In the example world the clock was read once, and every cache row the
    run added carries its first reading. *)
Lemma fix_detected_spam_tokens_single_timestamp_witness :
  let w' := final (fix_detected_spam_tokens example_cursor example_world) in
  clock_reads w' = 1%nat ∧
  ∀ kv t, general_cache example_db !! kv = None →
    general_cache (db w') !! kv = Some t → t = 1717000000.
Proof.
  intros w'. subst w'.
  destruct (fix_detected_spam_tokens_single_timestamp example_cursor example_world
              example_world_works) as (w' & E & Hr & _ & Hsame).
  rewrite E. cbn [final]. split; [exact Hr|exact Hsame].
Defined.

(** * Further properties of the step *)

(** ** A run that stops part-way *)

Lemma fix_detected_spam_tokens_fields c w :
  outcome (fix_detected_spam_tokens c w) = outcome (fix_detected_spam_tokens_body c w) ∧
  db (final (fix_detected_spam_tokens c w)) = db (final (fix_detected_spam_tokens_body c w)) ∧
  clock_reads (final (fix_detected_spam_tokens c w))
  = clock_reads (final (fix_detected_spam_tokens_body c w)) ∧
  trace (final (fix_detected_spam_tokens c w))
  = trace (final (fix_detected_spam_tokens_body c w)).
Proof.
  destruct (same_behaviour_fields _ _ (fix_detected_spam_tokens_transparent c w))
    as (Ho & Hd & _ & Hr & _ & Ht).
  split; [exact Ho|]. split; [exact Hd|]. split; [exact Hr|exact Ht].
Qed.

(** The store raises at update number [k]: the body stops there. *)
Lemma fix_detected_spam_tokens_body_err_updates c w k e :
  first_fault N_assets (faults w) = Some (k, e) →
  fix_detected_spam_tokens_body c w =
  Err e (World
           (run_all UPDATE_evm_tokens_SET_protocol_NULL_WHERE_identifier
              (take k ASSETS_TO_WHITELIST) (db w))
           (clock w) (clock_reads w) (drop (S k) (faults w))
           (trace w ++ map EvUpdate (take k ASSETS_TO_WHITELIST)) (log w)).
Proof.
  intros H. rewrite fix_detected_spam_tokens_body_spec, H.
  cbn zeta. by rewrite update_params_eq.
Qed.

(** The store raises at insert number [k]: the body stops there. *)
Lemma fix_detected_spam_tokens_body_err_inserts c w k e :
  first_fault N_assets (faults w) = None →
  first_fault N_assets (drop N_assets (faults w)) = Some (k, e) →
  ∃ tr fs,
    fix_detected_spam_tokens_body c w =
    Err e (World (partly_whitelisted N_assets k (clock w (clock_reads w)) (db w))
             (clock w) (S (clock_reads w)) fs tr (log w)).
Proof.
  intros H1 H2. rewrite fix_detected_spam_tokens_body_spec, H1, H2. cbn zeta.
  do 2 eexists. f_equal. f_equal.
  unfold partly_whitelisted, insert_params.
  by rewrite firstn_map, update_params_eq, take_N_assets.
Qed.

Lemma fix_detected_spam_tokens_body_clock_reads c w :
  clock_reads (final (fix_detected_spam_tokens_body c w)) = clock_reads w ∨
  clock_reads (final (fix_detected_spam_tokens_body c w)) = S (clock_reads w).
Proof.
  rewrite fix_detected_spam_tokens_body_spec. cbn zeta.
  destruct (first_fault N_assets (faults w)) as [[k e]|]; [by left|].
  destruct (first_fault N_assets (drop N_assets (faults w))) as [[k e]|]; by right.
Qed.

(** X1. When the first error of the store comes at update number [k] (the
    k+1-th of the N updates), [fix_detected_spam_tokens] raises it; the rows
    of the first [k] listed identifiers are cleared and no other row is; no
    cache row was added and the clock was not consulted. *)
Theorem fix_detected_spam_tokens_fails_in_updates (c : DBCursor) (w : world)
    (k : nat) (e : store_error) :
  (k < N_assets)%nat →
  faults w !! k = Some (Some e) →
  (∀ j e', (j < k)%nat → faults w !! j ≠ Some (Some e')) →
  ∃ w', fix_detected_spam_tokens c w = Err e w' ∧
    (∀ asset_id,
       evm_tokens (db w') !! asset_id =
       if decide (asset_id ∈ take k ASSETS_TO_WHITELIST)
       then clear_protocol <$> evm_tokens (db w) !! asset_id
       else evm_tokens (db w) !! asset_id) ∧
    general_cache (db w') = general_cache (db w) ∧
    clock_reads w' = clock_reads w.
Proof.
  intros Hk Hat Hbefore.
  pose proof (first_fault_complete _ _ _ _ Hk Hat Hbefore) as Hff.
  destruct (fix_detected_spam_tokens_fields c w) as (Ho & Hd & Hr & _).
  rewrite (fix_detected_spam_tokens_body_err_updates c w k e Hff) in Ho, Hd, Hr.
  cbn [outcome final db clock_reads] in Ho, Hd, Hr.
  exists (final (fix_detected_spam_tokens c w)).
  split; [exact (result_err_inv _ _ Ho)|]. rewrite Hd.
  split; [|split; [|exact Hr]].
  - intros asset_id. apply run_all_update_evm_tokens.
  - apply run_all_update_general_cache.
Qed.

(** The store raises at the second update: [BC], first of the list, is
    cleared, [CRO], second, is not, and [CRO] has no cache row. *)
Lemma fix_detected_spam_tokens_fails_in_updates_witness :
  let w' := final (fix_detected_spam_tokens example_cursor failing_update_world) in
  evm_tokens (db w') !! BC
    = Some (TokenRow None [SqlText "A"; SqlInteger 1; SqlInteger 18]) ∧
  evm_tokens (db w') !! CRO
    = Some (TokenRow (Some "aave") [SqlText "A"; SqlInteger 1; SqlInteger 8]) ∧
  general_cache (db w') = general_cache example_db.
Proof.
  intros w'. subst w'.
  destruct (fix_detected_spam_tokens_fails_in_updates example_cursor
              failing_update_world 1 (OperationalError "database is locked"))
    as (w' & E & Htok & Hcache & _).
  - vm_compute. lia.
  - reflexivity.
  - intros j e' Hj. replace j with 0%nat by lia. discriminate.
  - rewrite E. cbn [final]. rewrite !Htok, Hcache.
    split; [vm_compute; reflexivity|]. split; [vm_compute; reflexivity|reflexivity].
Defined.

(** X2. When the first error of the store comes at insert number [k], after
    the N updates, [fix_detected_spam_tokens] raises it; every listed row is
    cleared; the clock was consulted once; the first [k] listed identifiers
    are recorded (those that were not, with the reading) and no other cache
    row was added. *)
Theorem fix_detected_spam_tokens_fails_in_inserts (c : DBCursor) (w : world)
    (k : nat) (e : store_error) :
  (k < N_assets)%nat →
  faults w !! (N_assets + k)%nat = Some (Some e) →
  (∀ j e', (j < N_assets + k)%nat → faults w !! j ≠ Some (Some e')) →
  ∃ w', fix_detected_spam_tokens c w = Err e w' ∧
    (∀ asset_id,
       evm_tokens (db w') !! asset_id =
       if decide (asset_id ∈ ASSETS_TO_WHITELIST)
       then clear_protocol <$> evm_tokens (db w) !! asset_id
       else evm_tokens (db w) !! asset_id) ∧
    (∀ kv,
       general_cache (db w') !! kv =
       match general_cache (db w) !! kv with
       | Some t => Some t
       | None =>
           if decide (kv.1 = SPAM_ASSET_FALSE_POSITIVE ∧
                      kv.2 ∈ take k ASSETS_TO_WHITELIST)
           then Some (clock w (clock_reads w)) else None
       end) ∧
    clock_reads w' = S (clock_reads w).
Proof.
  intros Hk Hat Hbefore.
  assert (first_fault N_assets (faults w) = None) as H1.
  { apply first_fault_None_intro. intros j e' Hj. apply Hbefore. lia. }
  assert (first_fault N_assets (drop N_assets (faults w)) = Some (k, e)) as H2.
  { apply first_fault_complete; [exact Hk|by rewrite lookup_drop|].
    intros j e' Hj. rewrite lookup_drop. apply Hbefore. lia. }
  destruct (fix_detected_spam_tokens_fields c w) as (Ho & Hd & Hr & _).
  destruct (fix_detected_spam_tokens_body_err_inserts c w k e H1 H2)
    as (tr & fs & E).
  rewrite E in Ho, Hd, Hr. cbn [outcome final db clock_reads] in Ho, Hd, Hr.
  exists (final (fix_detected_spam_tokens c w)).
  split; [exact (result_err_inv _ _ Ho)|]. rewrite Hd.
  split; [|split; [|exact Hr]].
  - intros asset_id. rewrite partly_whitelisted_evm_tokens.
    by rewrite take_N_assets.
  - intros kv. apply partly_whitelisted_general_cache.
Qed.

(** The store raises at the third insert: [CRO], second of the list, has its
    cache row; [GTC], third, has none; [CRO]'s row in [evm_tokens] is
    cleared. *)
Lemma fix_detected_spam_tokens_fails_in_inserts_witness :
  let w' := final (fix_detected_spam_tokens example_cursor failing_insert_world) in
  general_cache (db w') !! (SPAM_ASSET_FALSE_POSITIVE, CRO) = Some 1717000000 ∧
  general_cache (db w') !! (SPAM_ASSET_FALSE_POSITIVE, GTC) = None ∧
  evm_tokens (db w') !! CRO
    = Some (TokenRow None [SqlText "A"; SqlInteger 1; SqlInteger 8]).
Proof.
  intros w'. subst w'.
  destruct (fix_detected_spam_tokens_fails_in_inserts example_cursor
              failing_insert_world 2 (OperationalError "database or disk is full"))
    as (w' & E & Htok & Hcache & _).
  - vm_compute. lia.
  - vm_compute. reflexivity.
  - intros j e' Hj. cbn [faults failing_insert_world].
    assert (j < 43)%nat as Hj' by (revert Hj; vm_compute; lia).
    rewrite lookup_app_l by (rewrite length_replicate; exact Hj').
    rewrite lookup_replicate_2 by exact Hj'. discriminate.
  - rewrite E. cbn [final]. rewrite !Hcache, Htok.
    split; [vm_compute; reflexivity|]. split; vm_compute; reflexivity.
Defined.

(** ** What a complete run changes *)

Lemma clear_protocol_fixed (row : token_row) :
  clear_protocol row = row ↔ protocol row = None.
Proof.
  destruct row as [p cols]. unfold clear_protocol. cbn. split.
  - by intros [= <-].
  - by intros ->.
Qed.

(** X3. The rows of [evm_tokens] that a complete run changes are exactly the
    rows of listed identifiers that carried a protocol (any protocol): a
    listed row whose protocol was NULL already, an unlisted row and a listed
    identifier without a row are not among them. *)
Theorem fix_detected_spam_tokens_updated_rows (c : DBCursor) (w : world) :
  store_works w →
  ∃ w', fix_detected_spam_tokens c w = Ok tt w' ∧
    ∀ asset_id,
      asset_id ∈ updated_rows (db w) (db w') ↔
      asset_id ∈ ASSETS_TO_WHITELIST ∧
      ∃ row, evm_tokens (db w) !! asset_id = Some row ∧ protocol row ≠ None.
Proof.
  intros Hw.
  destruct (fix_detected_spam_tokens_ok c w Hw) as (w' & E & Hd & _).
  exists w'. split; [exact E|]. rewrite Hd. intros asset_id.
  unfold updated_rows. rewrite elem_of_filter, whitelisted_evm_tokens. split.
  - intros [Hne _]. case_decide as Hin; [|by destruct Hne].
    split; [exact Hin|].
    destruct (evm_tokens (db w) !! asset_id) as [row|]; [|by destruct Hne].
    exists row. split; [reflexivity|].
    intros Hnull. apply Hne. cbn. f_equal. symmetry.
    by apply clear_protocol_fixed.
  - intros (Hin & row & Hrow & Hp). rewrite decide_True by exact Hin. split.
    + rewrite Hrow. cbn. intros [= Heq]. apply Hp.
      apply clear_protocol_fixed. by symmetry.
    + apply elem_of_union_l, elem_of_dom. by eexists.
Qed.

(** In the example store the run changes [CRO], which carried "aave". *)
Lemma fix_detected_spam_tokens_updated_rows_witness :
  CRO ∈ updated_rows (db example_world)
          (db (final (fix_detected_spam_tokens example_cursor example_world))).
Proof.
  destruct (fix_detected_spam_tokens_updated_rows example_cursor example_world
              example_world_works) as (w' & E & Hiff).
  rewrite E. cbn [final]. apply Hiff. split; [exact CRO_listed|].
  eexists. split; [vm_compute; reflexivity|discriminate].
Defined.

(** X4. A complete run leaves the store exactly as it found it if and only
    if no listed row carried a protocol and every listed identifier was
    recorded in the cache already. *)
Theorem fix_detected_spam_tokens_noop_iff (c : DBCursor) (w : world) :
  store_works w →
  ∃ w', fix_detected_spam_tokens c w = Ok tt w' ∧
    (db w' = db w ↔
     (∀ asset_id row, asset_id ∈ ASSETS_TO_WHITELIST →
        evm_tokens (db w) !! asset_id = Some row → protocol row = None) ∧
     (∀ asset_id, asset_id ∈ ASSETS_TO_WHITELIST →
        is_Some (general_cache (db w) !! (SPAM_ASSET_FALSE_POSITIVE, asset_id)))).
Proof.
  intros Hw.
  destruct (fix_detected_spam_tokens_ok c w Hw) as (w' & E & Hd & _).
  exists w'. split; [exact E|]. rewrite Hd. split.
  - intros Heq. split.
    + intros asset_id row Hin Hrow.
      pose proof (whitelisted_evm_tokens (clock w (clock_reads w)) (db w) asset_id)
        as Hl.
      rewrite Heq, decide_True, Hrow in Hl by exact Hin.
      apply clear_protocol_fixed. cbn in Hl. by injection Hl as <-.
    + intros asset_id Hin.
      pose proof (whitelisted_general_cache (clock w (clock_reads w)) (db w)
                    (SPAM_ASSET_FALSE_POSITIVE, asset_id)) as Hl.
      rewrite Heq in Hl.
      destruct (general_cache (db w) !! _) as [t|]; [by eexists|].
      cbn [fst snd] in Hl. rewrite decide_True in Hl; [discriminate Hl|].
      split; [reflexivity|exact Hin].
  - intros [Hnull Hrec]. apply database_eq.
    + apply map_eq. intros asset_id. rewrite whitelisted_evm_tokens.
      case_decide as Hin; [|reflexivity].
      destruct (evm_tokens (db w) !! asset_id) as [row|] eqn:Hrow; [|reflexivity].
      cbn. f_equal. apply clear_protocol_fixed. by eapply Hnull.
    + apply map_eq. intros [key value]. rewrite whitelisted_general_cache.
      destruct (general_cache (db w) !! (key, value)) as [t|] eqn:Hkv; [reflexivity|].
      cbn [fst snd]. case_decide as Hin; [|reflexivity].
      destruct Hin as [-> Hin]. destruct (Hrec value Hin) as [t Ht]. congruence.
    + apply whitelisted_other_tables.
Qed.

(** The example store is changed by the run: [CRO] carries a protocol. *)
Lemma fix_detected_spam_tokens_noop_iff_witness :
  db (final (fix_detected_spam_tokens example_cursor example_world))
  ≠ db example_world.
Proof.
  destruct (fix_detected_spam_tokens_noop_iff example_cursor example_world
              example_world_works) as (w' & E & Hiff).
  rewrite E. cbn [final]. intros Heq.
  destruct (proj1 Hiff Heq) as [Hnull _].
  specialize (Hnull CRO _ CRO_listed ltac:(vm_compute; reflexivity)).
  discriminate Hnull.
Defined.

(** ** The order of the list, and listing twice *)

Lemma run_all_update_same_identifiers (ids1 ids2 : list string) (d : database) :
  (∀ asset_id, asset_id ∈ ids1 ↔ asset_id ∈ ids2) →
  run_all UPDATE_evm_tokens_SET_protocol_NULL_WHERE_identifier ids1 d
  = run_all UPDATE_evm_tokens_SET_protocol_NULL_WHERE_identifier ids2 d.
Proof.
  intros Hsame. apply database_eq.
  - apply map_eq. intros asset_id. rewrite !run_all_update_evm_tokens.
    destruct (decide (asset_id ∈ ids1)) as [H1|H1];
      destruct (decide (asset_id ∈ ids2)) as [H2|H2]; try reflexivity.
    + by apply Hsame in H1.
    + by apply Hsame in H2.
  - by rewrite !run_all_update_general_cache.
  - by rewrite !run_all_update_other_tables.
Qed.

Lemma run_all_insert_same_identifiers ts (ids1 ids2 : list string) (d : database) :
  (∀ asset_id, asset_id ∈ ids1 ↔ asset_id ∈ ids2) →
  run_all INSERT_OR_IGNORE_INTO_general_cache
    (map (fun asset_id => (SPAM_ASSET_FALSE_POSITIVE, asset_id, ts)) ids1) d
  = run_all INSERT_OR_IGNORE_INTO_general_cache
      (map (fun asset_id => (SPAM_ASSET_FALSE_POSITIVE, asset_id, ts)) ids2) d.
Proof.
  intros Hsame. apply database_eq.
  - by rewrite !run_all_insert_evm_tokens.
  - apply map_eq. intros kv. rewrite !run_all_insert_general_cache.
    destruct (general_cache d !! kv); [reflexivity|].
    destruct (decide (kv.1 = SPAM_ASSET_FALSE_POSITIVE ∧ kv.2 ∈ ids1)) as [H1|H1];
      destruct (decide (kv.1 = SPAM_ASSET_FALSE_POSITIVE ∧ kv.2 ∈ ids2)) as [H2|H2];
      try reflexivity.
    + destruct H2. destruct H1 as [? H1]. split; [done|by apply Hsame].
    + destruct H1. destruct H2 as [? H2]. split; [done|by apply Hsame].
  - by rewrite !run_all_insert_other_tables.
Qed.

(** X5. What the two [executemany] calls of the step leave in the store
    depends on which identifiers are passed, not on their order nor on how
    often each occurs: against a store that raises nothing, two parameter
    lists with the same identifiers give the same store, for the updates and
    for the inserts stamped with one timestamp. *)
Theorem executemany_same_identifiers (ids1 ids2 : list string) (current_ts : Z)
    (w : world) :
  (∀ asset_id, asset_id ∈ ids1 ↔ asset_id ∈ ids2) →
  faults w = [] →
  db (final (executemany UPDATE_evm_tokens_SET_protocol_NULL_WHERE_identifier
               (map (fun asset_id => asset_id) ids1) w))
  = db (final (executemany UPDATE_evm_tokens_SET_protocol_NULL_WHERE_identifier
                 (map (fun asset_id => asset_id) ids2) w)) ∧
  db (final (executemany INSERT_OR_IGNORE_INTO_general_cache
               (map (fun asset_id => (SPAM_ASSET_FALSE_POSITIVE, asset_id, current_ts))
                  ids1) w))
  = db (final (executemany INSERT_OR_IGNORE_INTO_general_cache
                 (map (fun asset_id => (SPAM_ASSET_FALSE_POSITIVE, asset_id, current_ts))
                    ids2) w)).
Proof.
  intros Hsame Hf. rewrite !executemany_spec, Hf, !first_fault_nil.
  cbn [final db]. rewrite !map_id. split.
  - by apply run_all_update_same_identifiers.
  - by apply run_all_insert_same_identifiers.
Qed.

(** [BC; CRO] against [CRO; BC; CRO]: reordered, and [CRO] twice. *)
Lemma executemany_same_identifiers_witness :
  db (final (executemany UPDATE_evm_tokens_SET_protocol_NULL_WHERE_identifier
               [BC; CRO] example_world))
  = db (final (executemany UPDATE_evm_tokens_SET_protocol_NULL_WHERE_identifier
                 [CRO; BC; CRO] example_world)).
Proof.
  refine (proj1 (executemany_same_identifiers [BC; CRO] [CRO; BC; CRO] 0
                   example_world _ eq_refl)).
  intros asset_id. rewrite !elem_of_cons, !elem_of_nil. tauto.
Defined.

(** ** What the step never does *)

Lemma Forall_map_intro {A B} (P : B → Prop) (f : A → B) (l : list A) :
  (∀ x, x ∈ l → P (f x)) → Forall P (map f l).
Proof.
  induction l as [|x l IH]; intros H; [constructor|].
  cbn [map]. constructor; [apply H; left|].
  apply IH. intros y Hy. apply H. by right.
Qed.

Lemma step_events_ok ts : Forall (step_event ts) (step_events ts).
Proof.
  unfold step_events. apply Forall_app. split; [|apply Forall_app; split].
  - apply Forall_map_intro. intros asset_id Hin. exact Hin.
  - constructor; [reflexivity|constructor].
  - apply Forall_map_intro. intros asset_id Hin. cbn. by repeat split.
Qed.

(** X6. Whether it returns or raises, [fix_detected_spam_tokens] causes only
    updates of listed identifiers, clock readings and inserts of listed
    identifiers under SPAM_ASSET_FALSE_POSITIVE carrying the reading: it
    opens, commits and rolls back no transaction, and it consults the clock
    at most once. *)
Theorem fix_detected_spam_tokens_events (c : DBCursor) (w : world) :
  ∃ evs,
    trace (final (fix_detected_spam_tokens c w)) = (trace w ++ evs)%list ∧
    Forall (step_event (clock w (clock_reads w))) evs ∧
    (clock_reads w ≤ clock_reads (final (fix_detected_spam_tokens c w))
     ≤ S (clock_reads w))%nat.
Proof.
  destruct (fix_detected_spam_tokens_trace c w) as (evs & Ht & [rest Hpre]).
  exists evs. split; [exact Ht|]. split.
  - pose proof (step_events_ok (clock w (clock_reads w))) as Hall.
    rewrite Hpre in Hall. by apply Forall_app in Hall as [Hall _].
  - destruct (fix_detected_spam_tokens_fields c w) as (_ & _ & -> & _).
    destruct (fix_detected_spam_tokens_body_clock_reads c w) as [->| ->]; lia.
Qed.

(** ** Running again after a run that stopped part-way *)


